(** * Clean DDD project template generator

    A shallow embedding of [templates/project_template.py]: the structure
    specification and the template catalog, [str.format] on the templates,
    the structure materializer [create_directory_structure], the template
    renderer [generate_template_files] and the entry point [main], run
    against a model of the file system.

    Python strings are modelled as Rocq strings holding their UTF-8 bytes.
    Every character the code inspects (braces, slashes, ASCII white space)
    is a single byte that never occurs inside a multi-byte character. *)

From Stdlib Require Import Ascii String ZArith.
From stdpp Require Import gmap strings list fin_maps.

Open Scope string_scope.
Open Scope list_scope.

(** ** Strings *)

(** A Rocq string literal cannot hold a double quote without doubling it.
    The literals below are written with an apostrophe where the source has
    a double quote (no template of the source holds an apostrophe), and
    [dq] puts the double quotes back. *)
Definition dq_char (c : ascii) : ascii :=
  if Ascii.eqb c "'" then Ascii.ascii_of_nat 34 else c.

Fixpoint dq (s : string) : string :=
  match s with
  | EmptyString => EmptyString
  | String c r => String (dq_char c) (dq r)
  end.

Definition lbrace : ascii := "{".
Definition rbrace : ascii := "}".

(** [t in s] of Python, on strings. *)
Fixpoint starts_with (t s : string) : bool :=
  match t, s with
  | EmptyString, _ => true
  | String _ _, EmptyString => false
  | String a t', String b s' => Ascii.eqb a b && starts_with t' s'
  end.

Fixpoint contains (s t : string) : bool :=
  starts_with t s ||
  match s with
  | EmptyString => false
  | String _ s' => contains s' t
  end.

Fixpoint count_char (c : ascii) (s : string) : nat :=
  match s with
  | EmptyString => 0
  | String a r => (if Ascii.eqb a c then 1 else 0) + count_char c r
  end.

(** ** Exceptions *)

Inductive exn :=
| ValueError                      (* malformed format string *)
| LookupError (key : string)      (* KeyError / IndexError of str.format *)
| FileExistsError
| FileNotFoundError
| NotADirectoryError
| IsADirectoryError
| OSError                         (* any other failure of the environment *)
| SystemExit (code : Z).

Inductive result (A : Type) :=
| Ok (a : A)
| Raise (e : exn).
Arguments Ok {A} a.
Arguments Raise {A} e.

(** [except Exception] catches everything but [SystemExit]. *)
Definition is_Exception (e : exn) : bool :=
  match e with SystemExit _ => false | _ => true end.

Definition result_map {A B} (f : A -> B) (r : result A) : result B :=
  match r with Ok a => Ok (f a) | Raise e => Raise e end.

(** ** [str.format]

    The templates use replacement fields of the form [{name}] and the
    escapes [{{] and [}}] only; this is the fragment modelled. A field is
    looked up by its whole text among the keyword arguments (conversion,
    format-spec, attribute and index syntax occur in no template). The
    string is read left to right and the first error met is raised, as in
    Python. [field] is [Some name] while a replacement field is open. *)

Definition kwargs := list (string * string).

Fixpoint kw_lookup (name : string) (kw : kwargs) : option string :=
  match kw with
  | [] => None
  | (k, v) :: kw' => if String.eqb k name then Some v else kw_lookup name kw'
  end.

Fixpoint format_from (kw : kwargs) (field : option string) (s : string)
  : result string :=
  match field, s with
  | None, EmptyString => Ok EmptyString
  | None, String c r =>
      if Ascii.eqb c lbrace then
        match r with
        | String c' r' =>
            if Ascii.eqb c' lbrace
            then result_map (String lbrace) (format_from kw None r')
            else format_from kw (Some EmptyString) r
        | EmptyString => Raise ValueError
        end
      else if Ascii.eqb c rbrace then
        match r with
        | String c' r' =>
            if Ascii.eqb c' rbrace
            then result_map (String rbrace) (format_from kw None r')
            else Raise ValueError
        | EmptyString => Raise ValueError
        end
      else result_map (String c) (format_from kw None r)
  | Some name, EmptyString => Raise ValueError
  | Some name, String c r =>
      if Ascii.eqb c rbrace then
        match kw_lookup name kw with
        | Some v => result_map (String.append v) (format_from kw None r)
        | None => Raise (LookupError name)
        end
      else if Ascii.eqb c lbrace then Raise ValueError
      else format_from kw (Some (name +:+ String c EmptyString)) r
  end.

Definition format (template : string) (kw : kwargs) : result string :=
  format_from kw None template.

(** The same scan, keeping what it reads instead of substituting: the
    literal characters and the replacement fields of a template. *)
Inductive segment :=
| Chr (c : ascii)
| Field (name : string).

Fixpoint segments_from (field : option string) (s : string)
  : result (list segment) :=
  match field, s with
  | None, EmptyString => Ok []
  | None, String c r =>
      if Ascii.eqb c lbrace then
        match r with
        | String c' r' =>
            if Ascii.eqb c' lbrace
            then result_map (cons (Chr lbrace)) (segments_from None r')
            else segments_from (Some EmptyString) r
        | EmptyString => Raise ValueError
        end
      else if Ascii.eqb c rbrace then
        match r with
        | String c' r' =>
            if Ascii.eqb c' rbrace
            then result_map (cons (Chr rbrace)) (segments_from None r')
            else Raise ValueError
        | EmptyString => Raise ValueError
        end
      else result_map (cons (Chr c)) (segments_from None r)
  | Some name, EmptyString => Raise ValueError
  | Some name, String c r =>
      if Ascii.eqb c rbrace then
        result_map (cons (Field name)) (segments_from None r)
      else if Ascii.eqb c lbrace then Raise ValueError
      else segments_from (Some (name +:+ String c EmptyString)) r
  end.

Definition segments (template : string) : result (list segment) :=
  segments_from None template.

Fixpoint substitute (kw : kwargs) (segs : list segment) : result string :=
  match segs with
  | [] => Ok EmptyString
  | Chr c :: segs' => result_map (String c) (substitute kw segs')
  | Field name :: segs' =>
      match kw_lookup name kw with
      | Some v => result_map (String.append v) (substitute kw segs')
      | None => Raise (LookupError name)
      end
  end.

(** ** The template catalog (TEMPLATES) *)

Definition entity_template_py : string := Eval vm_compute in dq "'''
领域实体模板
'''
from dataclasses import dataclass


@dataclass
class {entity_name}:
    '''
    {entity_name} 聚合根

    业务规则：
    - 在此处描述主要业务规则
    - 列出不变式条件
    '''
    id: str
    # 添加其他属性

    def __post_init__(self):
        '''验证业务不变式'''
        if not self.id:
            raise ValueError('ID cannot be empty')

    def business_operation(self) -> None:
        '''描述业务操作'''
        # 实现业务逻辑
        pass
".

Definition repository_interface_template_py : string := Eval vm_compute in dq "'''
仓储接口模板
'''
from abc import ABC, abstractmethod
from typing import Optional, List
from .{entity_name_lower} import {entity_name}


class {entity_name}Repository(ABC):
    '''
    {entity_name}仓储抽象接口
    定义数据访问合约
    '''

    @abstractmethod
    def save(self, {entity_name_lower}: {entity_name}) -> None:
        '''保存{entity_name_lower}'''
        pass

    @abstractmethod
    def find_by_id(
        self, {entity_name_lower}_id: str
    ) -> Optional[{entity_name}]:
        '''通过ID查找{entity_name_lower}'''
        pass

    @abstractmethod
    def find_all(self) -> List[{entity_name}]:
        '''查找所有{entity_name_lower}'''
        pass

    @abstractmethod
    def delete(self, {entity_name_lower}_id: str) -> bool:
        '''删除{entity_name_lower}'''
        pass
".

Definition pyproject_toml : string := Eval vm_compute in dq "[build-system]
requires = ['setuptools>=45', 'wheel']
build-backend = 'setuptools.build_meta'

[project]
name = '{project_name}'
version = '0.1.0'
description = 'Clean DDD Python项目'
authors = [
    {{name = 'Your Name', email = 'your.email@example.com'}},
]
dependencies = [
    'dataclasses-json>=0.5.7',
    'pydantic>=1.10.0',
]

[project.optional-dependencies]
dev = [
    'pytest>=7.0.0',
    'pytest-cov>=4.0.0',
    'mypy>=1.0.0',
    'ruff>=0.1.0',
]

[tool.pytest.ini_options]
testpaths = ['tests']
python_files = ['test_*.py']
python_classes = ['Test*']
python_functions = ['test_*']
addopts = '--cov=src --cov-report=html --cov-report=term-missing'

[tool.ruff]
target-version = 'py38'
line-length = 88
select = ['E', 'W', 'F', 'I', 'B', 'C4', 'UP']
ignore = ['E501', 'B008']

[tool.ruff.per-file-ignores]
'__init__.py' = ['F401']
'tests/*' = ['B011']
".

Definition README_md : string := Eval vm_compute in dq "# {project_name}

基于Clean DDD架构的Python项目

## 项目结构

```
src/
├── domain/          # 领域层 - 业务逻辑核心
├── application/     # 应用层 - 用例编排
├── infrastructure/  # 基础设施层 - 技术实现
└── presentation/    # 表现层 - 外部接口
```

## 快速开始

1. 安装依赖:
```bash
pip install -e .
pip install -e '.[dev]'
```

2. 运行测试:
```bash
pytest
```

## 开发指南

遵循Clean DDD原则：
- 依赖指向内层 (Presentation → Application → Domain)
- 领域层保持纯净，无外部依赖
- 通过接口实现依赖倒置
- 关注点明确分离
".

Definition TEMPLATES : list (string * string) :=
  [ ("entity_template.py", entity_template_py);
    ("repository_interface_template.py", repository_interface_template_py);
    ("pyproject.toml", pyproject_toml);
    ("README.md", README_md) ].

(** [TEMPLATES[file_name]] *)
Definition TEMPLATES_get (file_name : string) : result string :=
  match kw_lookup file_name TEMPLATES with
  | Some template => Ok template
  | None => Raise (LookupError file_name)
  end.

(** ** The file system

    A path is the list of its components, innermost first: [base / name] is
    [name :: base], and the parent of [name :: base] is [base]. The empty
    path is the directory that names are resolved against; it always exists.
    Component names are opaque: symbolic links and [..] are not
    interpreted. *)

Abbreviation path := (list string).

Inductive node :=
| Dir
| File (content : string).

Global Instance node_eq_dec : EqDecision node.
Proof. solve_decision. Defined.

Abbreviation fs := (gmap (list string) node).

Definition node_at (t : fs) (p : path) : option node :=
  match p with
  | [] => Some Dir
  | _ => t !! p
  end.

Definition parent (p : path) : path := tail p.

(** Every entry of a file system lies in a directory. *)
Definition wf_fs (t : fs) : Prop :=
  forall name p n, t !! (name :: p) = Some n -> node_at t p = Some Dir.

(** [Path(s)]: the components of [s] between slashes, empty components and
    [.] dropped as pathlib does. *)
Fixpoint split_slash (acc s : string) : list string :=
  match s with
  | EmptyString => [acc]
  | String c r =>
      if Ascii.eqb c "/" then acc :: split_slash EmptyString r
      else split_slash (acc +:+ String c EmptyString) r
  end.

Definition Path (s : string) : path :=
  reverse (filter (fun c => c <> EmptyString /\ c <> ".") (split_slash EmptyString s)).

(** ** The process: file system and standard output, with exceptions *)

Record world := World { files : fs; stdout : list string }.

Definition M (A : Type) : Type := world -> world * result A.

Definition ret {A} (a : A) : M A := fun w => (w, Ok a).

Definition raise {A} (e : exn) : M A := fun w => (w, Raise e).

Definition bind {A B} (m : M A) (k : A -> M B) : M B :=
  fun w =>
    match m w with
    | (w', Ok a) => k a w'
    | (w', Raise e) => (w', Raise e)
    end.

(** [try: body except Exception as e: handler e] *)
Definition try_except {A} (body : M A) (handler : exn -> M A) : M A :=
  fun w =>
    match body w with
    | (w', Ok a) => (w', Ok a)
    | (w', Raise e) => if is_Exception e then handler e w' else (w', Raise e)
    end.

Definition lift {A} (r : result A) : M A := fun w => (w, r).

Declare Scope py_scope.
Delimit Scope py_scope with py.
Notation "x <- m ;; k" := (bind m (fun x => k))
  (at level 100, m at next level, right associativity) : py_scope.
Notation "m ;; k" := (bind m (fun _ => k))
  (at level 100, right associativity) : py_scope.
Open Scope py_scope.

Definition for_each {A} (body : A -> M unit) : list A -> M unit :=
  fix go (l : list A) : M unit :=
    match l with
    | [] => ret tt
    | a :: l' => body a ;; go l'
    end.

Definition print (line : string) : M unit :=
  fun w => (World (files w) (stdout w ++ [line]), Ok tt).

Definition sys_exit {A} (code : Z) : M A := raise (SystemExit code).

(** The exit status of the process: 0 on return, the code of [sys.exit],
    1 for an exception nobody caught. This is the status that the result
    of [main] asks for; an interpreter that cannot flush its output when
    it shuts down ends with another status, which is not modelled. *)
Definition exit_status {A} (r : result A) : Z :=
  match r with
  | Ok _ => 0
  | Raise (SystemExit code) => code
  | Raise _ => 1
  end.

(** The text [str(e)] of an exception, as the handler of [main] prints it. *)
Definition exn_message (e : exn) : string :=
  match e with
  | ValueError => "ValueError"
  | LookupError key => key
  | FileExistsError => "[Errno 17] File exists"
  | FileNotFoundError => "[Errno 2] No such file or directory"
  | NotADirectoryError => "[Errno 20] Not a directory"
  | IsADirectoryError => "[Errno 21] Is a directory"
  | OSError => "OSError"
  | SystemExit _ => EmptyString
  end.

(** The operations that change the file system. The environment may refuse
    any of them (permission denied, disk full, ...): [fault op t] tells
    whether [op] fails in file system [t]. *)
Inductive fsop :=
| OpMkdir (p : path)
| OpWrite (p : path) (content : string).

Definition no_fault : fsop -> fs -> bool := fun _ _ => false.

(** [bool(content.strip())]: some character of [content] is not white
    space. White space is what [str.isspace] accepts, read off the UTF-8
    bytes: U+0009..000D, U+001C..0020, U+0085, U+00A0, U+1680,
    U+2000..200A, U+2028, U+2029, U+202F, U+205F, U+3000. *)
Definition ascii_space (n : N) : bool :=
  ((9 <=? n) && (n <=? 13) || (28 <=? n) && (n <=? 32))%N.

Definition space3 (a b c : N) : bool :=
  ((a =? 225) && (b =? 154) && (c =? 128)
   || (a =? 226) && (b =? 128)
      && ((128 <=? c) && (c <=? 138) || (c =? 168) || (c =? 169) || (c =? 175))
   || (a =? 226) && (b =? 129) && (c =? 159)
   || (a =? 227) && (b =? 128) && (c =? 128))%N.

Fixpoint all_space (s : string) : bool :=
  match s with
  | EmptyString => true
  | String a r =>
      if ascii_space (N_of_ascii a) then all_space r
      else
        match r with
        | String b r' =>
            if (N_of_ascii a =? 194)%N
               && ((N_of_ascii b =? 133) || (N_of_ascii b =? 160))%N
            then all_space r'
            else
              match r' with
              | String c r'' =>
                  if space3 (N_of_ascii a) (N_of_ascii b) (N_of_ascii c)
                  then all_space r''
                  else false
              | EmptyString => false
              end
        | EmptyString => false
        end
  end.

Definition strip_nonempty (content : string) : bool := negb (all_space content).

(** ** The structure specification (PROJECT_STRUCTURE)

    A nested mapping from names to sub-mappings (directories) or strings
    (files), in the order the source lists its items. *)

#[warnings="-register-all"]
Inductive entry :=
| EFile (content : string)
| EDir (items : list (string * entry)).

Abbreviation structure := (list (string * entry)).

Definition docs_README : string := "# 项目文档

请在此处添加项目特定的文档。
".

Definition PROJECT_STRUCTURE : structure :=
  [ ("src", EDir
      [ ("__init__.py", EFile EmptyString);
        ("domain", EDir
          [ ("__init__.py", EFile EmptyString);
            ("entities", EDir [("__init__.py", EFile EmptyString)]);
            ("value_objects", EDir [("__init__.py", EFile EmptyString)]);
            ("aggregates", EDir [("__init__.py", EFile EmptyString)]);
            ("events", EDir [("__init__.py", EFile EmptyString)]);
            ("repositories", EDir [("__init__.py", EFile EmptyString)]);
            ("services", EDir [("__init__.py", EFile EmptyString)]) ]);
        ("application", EDir
          [ ("__init__.py", EFile EmptyString);
            ("commands", EDir [("__init__.py", EFile EmptyString)]);
            ("queries", EDir [("__init__.py", EFile EmptyString)]);
            ("handlers", EDir [("__init__.py", EFile EmptyString)]);
            ("services", EDir [("__init__.py", EFile EmptyString)]);
            ("dtos", EDir [("__init__.py", EFile EmptyString)]) ]);
        ("infrastructure", EDir
          [ ("__init__.py", EFile EmptyString);
            ("persistence", EDir [("__init__.py", EFile EmptyString)]);
            ("repositories", EDir [("__init__.py", EFile EmptyString)]);
            ("messaging", EDir [("__init__.py", EFile EmptyString)]);
            ("external_services", EDir [("__init__.py", EFile EmptyString)]) ]);
        ("presentation", EDir
          [ ("__init__.py", EFile EmptyString);
            ("api", EDir [("__init__.py", EFile EmptyString)]);
            ("cli", EDir [("__init__.py", EFile EmptyString)]);
            ("web", EDir [("__init__.py", EFile EmptyString)]) ]) ]);
    ("tests", EDir
      [ ("__init__.py", EFile EmptyString);
        ("unit", EDir
          [ ("__init__.py", EFile EmptyString);
            ("domain", EDir [("__init__.py", EFile EmptyString)]);
            ("application", EDir [("__init__.py", EFile EmptyString)]) ]);
        ("integration", EDir [("__init__.py", EFile EmptyString)]);
        ("e2e", EDir [("__init__.py", EFile EmptyString)]) ]);
    ("docs", EDir [ ("README.md", EFile docs_README) ]) ].

(** ** The program *)

Section Program.

(** The environment of a run: which operations fail, and [str.lower]
    (full Unicode lower-casing, taken as it is). *)
Variable fault : fsop -> fs -> bool.
Variable lower : string -> string.

(** *** pathlib and shutil *)

Definition Path_exists (p : path) : M bool :=
  fun w => (w, Ok (bool_decide (is_Some (node_at (files w) p)))).

Definition dir_at (w : world) (p : path) : bool :=
  bool_decide (node_at (files w) p = Some Dir).

Definition os_mkdir (p : path) : M unit :=
  fun w =>
    match node_at (files w) p with
    | Some _ => (w, Raise FileExistsError)
    | None =>
        match node_at (files w) (parent p) with
        | None => (w, Raise FileNotFoundError)
        | Some (File _) => (w, Raise NotADirectoryError)
        | Some Dir =>
            if fault (OpMkdir p) (files w) then (w, Raise OSError)
            else (World (<[p := Dir]> (files w)) (stdout w), Ok tt)
        end
    end.

(** [Path.mkdir(parents=False, exist_ok=exist_ok)]: a missing parent is an
    error; any other [OSError] is swallowed when [exist_ok] holds and the
    path is a directory. *)
Definition mkdir_once (exist_ok : bool) (p : path) : M unit :=
  fun w =>
    match os_mkdir p w with
    | (w', Ok a) => (w', Ok a)
    | (w', Raise FileNotFoundError) => (w', Raise FileNotFoundError)
    | (w', Raise e) =>
        if negb exist_ok || negb (dir_at w' p) then (w', Raise e)
        else (w', Ok tt)
    end.

(** [Path.mkdir(parents=True, exist_ok=exist_ok)]: on a missing parent,
    make the parent the same way (with [exist_ok=True]) and try once
    more. *)
Fixpoint mkdir_parents (exist_ok : bool) (p : path) : M unit :=
  fun w =>
    match os_mkdir p w with
    | (w', Ok a) => (w', Ok a)
    | (w', Raise FileNotFoundError) =>
        match p with
        | [] => (w', Raise FileNotFoundError)
        | _ :: up => (mkdir_parents true up ;; mkdir_once exist_ok p) w'
        end
    | (w', Raise e) =>
        if negb exist_ok || negb (dir_at w' p) then (w', Raise e)
        else (w', Ok tt)
    end.

Definition Path_mkdir (parents exist_ok : bool) (p : path) : M unit :=
  if parents then mkdir_parents exist_ok p else mkdir_once exist_ok p.

(** [Path.write_text(content, encoding='utf-8')] *)
Definition write_text (p : path) (content : string) : M unit :=
  fun w =>
    match node_at (files w) p with
    | Some Dir => (w, Raise IsADirectoryError)
    | Some (File _) =>
        if fault (OpWrite p content) (files w) then (w, Raise OSError)
        else (World (<[p := File content]> (files w)) (stdout w), Ok tt)
    | None =>
        match node_at (files w) (parent p) with
        | None => (w, Raise FileNotFoundError)
        | Some (File _) => (w, Raise NotADirectoryError)
        | Some Dir =>
            if fault (OpWrite p content) (files w) then (w, Raise OSError)
            else (World (<[p := File content]> (files w)) (stdout w), Ok tt)
        end
    end.

(** [shutil.rmtree(p)]: the directory and everything below it goes. The
    removal itself is taken to succeed. *)
Definition shutil_rmtree (p : path) : M unit :=
  fun w =>
    match node_at (files w) p with
    | None => (w, Raise FileNotFoundError)
    | Some (File _) => (w, Raise NotADirectoryError)
    | Some Dir =>
        (World (filter (fun kv => ~ p `suffix_of` kv.1) (files w)) (stdout w), Ok tt)
    end.

(** *** create_directory_structure *)

(** The file branch of the loop body: [path.parent.mkdir(...)], then write
    unless the file exists and the content is blank. *)
Definition create_file (path : path) (content : string) : M unit :=
  Path_mkdir true true (parent path) ;;
  e <- Path_exists path ;;
  if negb e || strip_nonempty content
  then write_text path content
  else ret tt.

(** The loop body for one item, [path] being [base_path / name]. A name
    is taken as one component of the path, which is what pathlib makes of
    the keys that [plain_key] accepts (no slash, not empty, neither [.]
    nor [..]); the properties of the materializer on an arbitrary
    structure are stated for such keys. *)
Fixpoint create_entry (path : path) (content : entry) : M unit :=
  match content with
  | EDir sub =>
      Path_mkdir true true path ;;
      for_each (fun item => create_entry (item.1 :: path) item.2) sub
  | EFile text => create_file path text
  end.

Definition create_directory_structure (base_path : path) (structure : structure)
  : M unit :=
  for_each (fun item => create_entry (item.1 :: base_path) item.2) structure.

(** *** generate_template_files *)

Definition generate_template_files
  (project_path : path) (entity_name project_name : string) : M unit :=
  let entity_name_lower := lower entity_name in
  let templates_dir := "templates" :: project_path in
  Path_mkdir false true templates_dir ;;
  for_each
    (fun item : string * string =>
       let (template_name, template_content) := item in
       let file_path := template_name :: templates_dir in
       content <- lift (format template_content
                          [ ("entity_name", entity_name);
                            ("entity_name_lower", entity_name_lower);
                            ("project_name", project_name) ]) ;;
       write_text file_path content)
    TEMPLATES.

(** *** main *)

Definition usage : list string :=
  [ "用法: python project_template.py <项目名称> <主要实体名称>";
    "示例: python project_template.py my-ecommerce Product" ].

Definition next_steps (project_name : string) : string :=
  "
🎉 下一步:
1. cd " +:+ project_name +:+ dq "
2. pip install -e '.[dev]'
3. 查看 templates/ 目录下的模板文件
4. 使用模板创建你的第一个实体和服务
5. 运行 pytest 验证设置

📚 参考文档:
- README.md: 项目概述
- templates/: 代码模板
- ../QUICK_START.md: 快速开始指南
        ".

(** The body of the [try] block. *)
Definition generate (project_path : path) (entity_name project_name : string)
  : M unit :=
  print "📁 创建目录结构..." ;;
  create_directory_structure project_path PROJECT_STRUCTURE ;;
  print "📝 生成模板文件..." ;;
  generate_template_files project_path entity_name project_name ;;
  print "🔧 创建项目配置文件..." ;;
  for_each
    (fun file_name =>
       template <- lift (TEMPLATES_get file_name) ;;
       content <- lift (format template
                          [ ("project_name", project_name);
                            ("entity_name", entity_name);
                            ("entity_name_lower", lower entity_name) ]) ;;
       write_text (file_name :: project_path) content)
    [ "pyproject.toml"; "README.md" ] ;;
  print "✅ 项目创建成功!" ;;
  print (next_steps project_name).

(** The [except Exception as e] block. *)
Definition cleanup (project_path : path) (e : exn) : M unit :=
  print ("❌ 创建项目时出错: " +:+ exn_message e) ;;
  present <- Path_exists project_path ;;
  (if present then shutil_rmtree project_path else ret tt) ;;
  sys_exit 1.

Definition main (argv : list string) : M unit :=
  if negb (Nat.eqb (length argv) 3) then
    for_each print usage ;;
    sys_exit 1
  else
    let project_name := nth 1 argv EmptyString in
    let entity_name := nth 2 argv EmptyString in
    print ("🚀 创建Clean DDD项目: " +:+ project_name) ;;
    print ("📦 主要实体: " +:+ entity_name) ;;
    let project_path := Path project_name in
    present <- Path_exists project_path ;;
    if present then
      print ("❌ 目录 " +:+ project_name +:+ " 已存在") ;;
      sys_exit 1
    else
      Path_mkdir false false project_path ;;
      try_except
        (generate project_path entity_name project_name)
        (cleanup project_path).

End Program.

(** [str.lower] on ASCII text. *)
Definition ascii_lower_char (c : ascii) : ascii :=
  let n := N_of_ascii c in
  if ((65 <=? n) && (n <=? 90))%N then ascii_of_N (n + 32) else c.

Fixpoint ascii_lower (s : string) : string :=
  match s with
  | EmptyString => EmptyString
  | String c r => String (ascii_lower_char c) (ascii_lower r)
  end.

Definition empty_world : world := World ∅ [].

(** ** Vocabulary of the properties *)

(** *** Rendering *)

(** The keyword arguments of the two [format] calls, in the order each
    call site writes them. *)
Definition template_kwargs (lower : string -> string)
  (entity_name project_name : string) : kwargs :=
  [ ("entity_name", entity_name);
    ("entity_name_lower", lower entity_name);
    ("project_name", project_name) ].

Definition root_kwargs (lower : string -> string)
  (entity_name project_name : string) : kwargs :=
  [ ("project_name", project_name);
    ("entity_name", entity_name);
    ("entity_name_lower", lower entity_name) ].

Definition placeholder_tokens : list string :=
  [ "{project_name}"; "{entity_name}"; "{entity_name_lower}" ].

Definition no_placeholder_left (out : string) : Prop :=
  forall tok, tok ∈ placeholder_tokens -> contains out tok = false.

Definition field_known (names : list string) (seg : segment) : bool :=
  match seg with
  | Chr _ => true
  | Field name => bool_decide (name ∈ names)
  end.

(** Every opening brace of [s] is followed by a character that [ok]
    accepts. *)
Fixpoint lbrace_next (ok : ascii -> bool) (s : string) : bool :=
  match s with
  | EmptyString => true
  | String c r =>
      (if Ascii.eqb c lbrace
       then match r with String d _ => ok d | EmptyString => false end
       else true)
      && lbrace_next ok r
  end.

(** The same on the segments of a template: a literal opening brace is
    followed by a literal character that [ok] accepts. *)
Fixpoint seg_lbrace_next (ok : ascii -> bool) (segs : list segment) : bool :=
  match segs with
  | [] => true
  | Chr c :: segs' =>
      (if Ascii.eqb c lbrace
       then match segs' with Chr d :: _ => ok d | _ => false end
       else true)
      && seg_lbrace_next ok segs'
  | Field _ :: segs' => seg_lbrace_next ok segs'
  end.

(** The text a template renders to ([format] does not fail on the
    catalog, see [format_TEMPLATES]). *)
Definition render (lower : string -> string)
  (template entity_name project_name : string) : string :=
  match format template (template_kwargs lower entity_name project_name) with
  | Ok out => out
  | Raise _ => EmptyString
  end.

(** *** Trees *)

(** The nodes an item of a structure stands for, in the order the
    materializer visits them; [p] is the path of the item. *)
Fixpoint entry_nodes (p : path) (e : entry) : list (path * node) :=
  match e with
  | EFile content => [(p, File content)]
  | EDir items =>
      (p, Dir) :: flat_map (fun item => entry_nodes (item.1 :: p) item.2) items
  end.

Definition structure_nodes (base : path) (s : structure) : list (path * node) :=
  flat_map (fun item => entry_nodes (item.1 :: base) item.2) s.

(** The paths a structure names below [base]. *)
Definition structure_paths (base : path) (s : structure) : list path :=
  (structure_nodes base s).*1.

(** Relative nodes placed below [base]. *)
Definition under (base : path) (l : list (path * node)) : list (path * node) :=
  map (fun pn => (pn.1 ++ base, pn.2)) l.

(** The file system with the nodes of [l] written into it, in order. *)
Definition plant (l : list (path * node)) (t : fs) : fs :=
  foldl (fun t pn => <[pn.1 := pn.2]> t) t l.

(** The last node that [l] gives for [p]. *)
Fixpoint planted (p : path) (l : list (path * node)) : option node :=
  match l with
  | [] => None
  | (q, n) :: l' =>
      match planted p l' with
      | Some n' => Some n'
      | None => if bool_decide (q = p) then Some n else None
      end
  end.

(** A Python dict has each key once. *)
Fixpoint wf_entry (e : entry) : bool :=
  match e with
  | EFile _ => true
  | EDir items =>
      bool_decide (NoDup items.*1) && forallb (fun item => wf_entry item.2) items
  end.

Definition wf_structure (s : structure) : bool := wf_entry (EDir s).

(** What is left of an item once the materializer is through with it: the
    directories are there, a file with content holds it, a file without
    content is some node. *)
Fixpoint settled (p : path) (e : entry) (t : fs) : Prop :=
  match e with
  | EFile content =>
      node_at t (parent p) = Some Dir /\
      (if strip_nonempty content
       then node_at t p = Some (File content)
       else is_Some (node_at t p))
  | EDir items =>
      node_at t p = Some Dir /\
      (fix all (l : list (string * entry)) : Prop :=
         match l with
         | [] => True
         | item :: l' => settled (item.1 :: p) item.2 t /\ all l'
         end) items
  end.

Definition all_settled (base : path) (s : structure) (t : fs) : Prop :=
  Forall (fun item => settled (item.1 :: base) item.2 t) s.

(** How a file system may change: at each path nothing happens, or a
    directory appears where [D] allows it, or a file is written (over
    nothing or over a file) with a content that [F] allows there. *)
Definition evolves (D : path -> Prop) (F : path -> string -> Prop) (t t' : fs) : Prop :=
  forall q,
    t' !! q = t !! q
    \/ (D q /\ t !! q = None /\ t' !! q = Some Dir)
    \/ (exists c, F q c /\ t !! q <> Some Dir /\ t' !! q = Some (File c)).

Definition touches {A} (D : path -> Prop) (F : path -> string -> Prop) (m : M A) : Prop :=
  forall w w' r, m w = (w', r) -> evolves D F (files w) (files w').

Definition anywhere : path -> Prop := fun _ => True.
Definition nowhere : path -> Prop := fun _ => False.
Definition anything : path -> string -> Prop := fun _ _ => True.
Definition nothing : path -> string -> Prop := fun _ _ => False.

(** *** The generated project *)

(** The nodes of a generated project, relative to its root, in the order
    [main] makes them. *)
Definition generated (lower : string -> string)
  (project_name entity_name : string) : list (path * node) :=
  ([], Dir)
  :: structure_nodes [] PROJECT_STRUCTURE
  ++ (["templates"], Dir)
  :: map (fun item : string * string =>
            ([item.1; "templates"],
             File (render lower item.2 entity_name project_name)))
       TEMPLATES
  ++ [ (["pyproject.toml"],
         File (render lower pyproject_toml entity_name project_name));
       (["README.md"],
         File (render lower README_md entity_name project_name)) ].




(** A character that starts none of the placeholder names. *)
Definition not_placeholder_start (d : ascii) : bool :=
  negb (Ascii.eqb d "p" || Ascii.eqb d "e").

Definition placeholder_names : list string :=
  [ "entity_name"; "entity_name_lower"; "project_name" ].

(** A template is well formed, names known fields only, and each of its
    literal opening braces is followed by a character that starts no
    placeholder name. *)
Definition template_check (template : string) : bool :=
  match segments template with
  | Ok segs =>
      forallb (field_known placeholder_names) segs
      && seg_lbrace_next not_placeholder_start segs
  | Raise _ => false
  end.

(** The process once [main] has announced what it is about to make. *)
Definition announced (project_name entity_name : string) (w : world) : world :=
  World (files w)
    (stdout w ++ [ "🚀 创建Clean DDD项目: " +:+ project_name;
                   "📦 主要实体: " +:+ entity_name ]).

(** An environment in which the README of project shop cannot be
    written. *)
Definition readme_write_fails : fsop -> fs -> bool :=
  fun op _ =>
    match op with
    | OpWrite p _ => bool_decide (p = ["README.md"; "shop"])
    | OpMkdir _ => false
    end.


(** A computation that raises nothing but exceptions that
    [except Exception] catches. *)
Definition raises_Exception {A} (m : M A) : Prop :=
  forall w w' e, m w = (w', Raise e) -> is_Exception e = true.

(** The nodes that the template renderer makes, relative to the project
    directory. *)
Definition template_nodes (lower : string -> string)
  (entity_name project_name : string) : list (path * node) :=
  (["templates"], Dir)
  :: map (fun item : string * string =>
            ([item.1; "templates"],
             File (render lower item.2 entity_name project_name)))
       TEMPLATES.


(** [m] returns only where [m0] returns, with the same result and the
    same state: what [m] can do more than [m0] is fail. *)
Definition succeeds_as {A} (m m0 : M A) : Prop :=
  forall w w' a, m w = (w', Ok a) -> m0 w = (w', Ok a).

(** A computation that prints nothing. *)
Definition silent {A} (m : M A) : Prop :=
  forall w w' r, m w = (w', r) -> stdout w' = stdout w.

(** A key that [base_path / name] appends as one component: not empty,
    neither [.] nor [..], without slash and without NUL. *)
Definition plain_key (name : string) : bool :=
  negb (String.eqb name "") && negb (String.eqb name ".")
  && negb (String.eqb name "..")
  && Nat.eqb (count_char "/"%char name) 0
  && Nat.eqb (count_char "000"%char name) 0.

Fixpoint plain_keys (e : entry) : bool :=
  match e with
  | EFile _ => true
  | EDir items => forallb (fun item => plain_key item.1 && plain_keys item.2) items
  end.

Definition plain_structure (s : structure) : bool := plain_keys (EDir s).

(** * Properties *)

(** ** [str.format] *)

Lemma result_map_Ok {A B} (f : A -> B) r b :
  result_map f r = Ok b -> exists a, r = Ok a /\ b = f a.
Proof. destruct r; simpl; intros H; inversion H; eauto. Qed.

Lemma format_from_field kw name c r :
  format_from kw (Some name) (String c r) =
  if Ascii.eqb c rbrace then
    match kw_lookup name kw with
    | Some v => result_map (String.append v) (format_from kw None r)
    | None => Raise (LookupError name)
    end
  else if Ascii.eqb c lbrace then Raise ValueError
  else format_from kw (Some (name +:+ String c EmptyString)) r.
Proof. reflexivity. Qed.

Lemma format_from_text kw c c' r :
  format_from kw None (String c (String c' r)) =
  if Ascii.eqb c lbrace then
    if Ascii.eqb c' lbrace
    then result_map (String lbrace) (format_from kw None r)
    else format_from kw (Some EmptyString) (String c' r)
  else if Ascii.eqb c rbrace then
    if Ascii.eqb c' rbrace
    then result_map (String rbrace) (format_from kw None r)
    else Raise ValueError
  else result_map (String c) (format_from kw None (String c' r)).
Proof. reflexivity. Qed.

Lemma segments_from_field name c r :
  segments_from (Some name) (String c r) =
  if Ascii.eqb c rbrace then
    result_map (cons (Field name)) (segments_from None r)
  else if Ascii.eqb c lbrace then Raise ValueError
  else segments_from (Some (name +:+ String c EmptyString)) r.
Proof. reflexivity. Qed.

Lemma segments_from_text c c' r :
  segments_from None (String c (String c' r)) =
  if Ascii.eqb c lbrace then
    if Ascii.eqb c' lbrace
    then result_map (cons (Chr lbrace)) (segments_from None r)
    else segments_from (Some EmptyString) (String c' r)
  else if Ascii.eqb c rbrace then
    if Ascii.eqb c' rbrace
    then result_map (cons (Chr rbrace)) (segments_from None r)
    else Raise ValueError
  else result_map (cons (Chr c)) (segments_from None (String c' r)).
Proof. reflexivity. Qed.

Lemma format_from_segments_step kw s :
  (forall field segs,
     segments_from field s = Ok segs ->
     format_from kw field s = substitute kw segs) /\
  (forall c field segs,
     segments_from field (String c s) = Ok segs ->
     format_from kw field (String c s) = substitute kw segs).
Proof.
  induction s as [|c' r IH].
  - split.
    + intros [name|] segs; simpl; [discriminate|]. by intros [= <-].
    + intros c [name|] segs; simpl.
      * destruct (Ascii.eqb c rbrace).
        -- intros [= <-]. simpl. by destruct (kw_lookup name kw).
        -- destruct (Ascii.eqb c lbrace); discriminate.
      * destruct (Ascii.eqb c lbrace); [discriminate|].
        destruct (Ascii.eqb c rbrace); [discriminate|].
        by intros [= <-].
  - destruct IH as [IH1 IH2]. split; [apply IH2|].
    intros c [name|] segs.
    + rewrite segments_from_field, format_from_field.
      destruct (Ascii.eqb c rbrace).
      * intros (segs' & Hs & ->)%result_map_Ok. cbn [substitute].
        destruct (kw_lookup name kw); [|reflexivity].
        by rewrite (IH2 _ _ _ Hs).
      * destruct (Ascii.eqb c lbrace); [discriminate|]. apply IH2.
    + rewrite segments_from_text, format_from_text.
      destruct (Ascii.eqb c lbrace).
      * destruct (Ascii.eqb c' lbrace).
        -- intros (segs' & Hs & ->)%result_map_Ok. cbn [substitute].
           by rewrite (IH1 _ _ Hs).
        -- apply IH2.
      * destruct (Ascii.eqb c rbrace).
        -- destruct (Ascii.eqb c' rbrace); [|discriminate].
           intros (segs' & Hs & ->)%result_map_Ok. cbn [substitute].
           by rewrite (IH1 _ _ Hs).
        -- intros (segs' & Hs & ->)%result_map_Ok. cbn [substitute].
           by rewrite (IH2 _ _ _ Hs).
Qed.

(** [format] substitutes the fields of the template and unescapes the
    doubled braces. *)
Lemma format_segments kw template segs :
  segments template = Ok segs ->
  format template kw = substitute kw segs.
Proof. apply format_from_segments_step. Qed.

Lemma substitute_known kw segs :
  forallb (field_known kw.*1) segs = true ->
  exists out, substitute kw segs = Ok out.
Proof.
  induction segs as [|[c|name] segs IH]; simpl.
  - eauto.
  - intros [out ->]%IH. simpl. eauto.
  - intros [Hn [out ->]%IH]%andb_prop.
    apply bool_decide_eq_true_1 in Hn.
    assert (is_Some (kw_lookup name kw)) as [v ->].
    { clear -Hn. induction kw as [|[k v] kw IH]; simpl in *.
      - by apply elem_of_nil in Hn.
      - destruct (String.eqb_spec k name); [eauto|].
        apply elem_of_cons in Hn as [->|Hn]; [done|]. by apply IH. }
    simpl. eauto.
Qed.

Lemma substitute_ext kw1 kw2 segs :
  (forall name, kw_lookup name kw1 = kw_lookup name kw2) ->
  substitute kw1 segs = substitute kw2 segs.
Proof.
  intros Hkw. induction segs as [|[c|name] segs IH]; simpl; [done|by rewrite IH|].
  rewrite Hkw. destruct (kw_lookup name kw2); [|done]. by rewrite IH.
Qed.

Lemma kwargs_same_lookup lower entity_name project_name name :
  kw_lookup name (root_kwargs lower entity_name project_name)
  = kw_lookup name (template_kwargs lower entity_name project_name).
Proof.
  unfold root_kwargs, template_kwargs. cbn [kw_lookup].
  destruct (String.eqb "project_name" name) eqn:H1,
    (String.eqb "entity_name" name) eqn:H2,
    (String.eqb "entity_name_lower" name) eqn:H3;
    try reflexivity;
    repeat match goal with
           | H : String.eqb _ _ = true |- _ => apply String.eqb_eq in H
           end; congruence.
Qed.

Lemma lbrace_next_app ok v s :
  count_char lbrace v = 0 ->
  lbrace_next ok s = true ->
  lbrace_next ok (v +:+ s) = true.
Proof.
  intros Hv Hs. induction v as [|c v IH]; [done|].
  simpl in *. destruct (Ascii.eqb c lbrace); [discriminate|].
  simpl. by apply IH.
Qed.

Lemma substitute_lbrace_next ok kw segs out :
  (forall name v, kw_lookup name kw = Some v -> count_char lbrace v = 0) ->
  seg_lbrace_next ok segs = true ->
  substitute kw segs = Ok out ->
  lbrace_next ok out = true.
Proof.
  intros Hkw. revert out.
  induction segs as [|[c|name] segs IH]; intros out; simpl.
  - by intros _ [= <-].
  - intros [Hc Hs]%andb_prop (out' & Ho & ->)%result_map_Ok.
    simpl. rewrite (IH _ Hs Ho), andb_true_r.
    destruct (Ascii.eqb c lbrace); [|done].
    destruct segs as [|[d|?] segs]; try discriminate.
    simpl in Ho. apply result_map_Ok in Ho as (? & _ & ->). done.
  - intros Hs. destruct (kw_lookup name kw) as [v|] eqn:Hv; [|discriminate].
    intros (out' & Ho & ->)%result_map_Ok.
    apply lbrace_next_app; eauto.
Qed.

Lemma lbrace_next_contains ok s d tok :
  lbrace_next ok s = true ->
  ok d = false ->
  contains s (String lbrace (String d tok)) = false.
Proof.
  intros Hs Hd. induction s as [|c r IH]; [done|].
  simpl in Hs. apply andb_prop in Hs as [Hc Hr].
  cbn [contains]. rewrite (IH Hr), orb_false_r.
  cbn [starts_with]. rewrite Ascii.eqb_sym.
  destruct (Ascii.eqb c lbrace); [|done].
  destruct r as [|d' r]; [done|]. cbn [starts_with].
  destruct (Ascii.eqb_spec d d') as [<-|]; [congruence|done].
Qed.

Lemma TEMPLATES_checked :
  forallb (fun item => template_check item.2) TEMPLATES = true.
Proof. vm_compute. reflexivity. Qed.

Lemma template_checked tname template :
  (tname, template) ∈ TEMPLATES -> template_check template = true.
Proof.
  intros Hin. pose proof TEMPLATES_checked as H.
  rewrite forallb_forall in H. apply (H (tname, template)).
  by apply list_elem_of_In.
Qed.

Lemma kwargs_names lower entity_name project_name kw :
  kw ∈ [ template_kwargs lower entity_name project_name;
         root_kwargs lower entity_name project_name ] ->
  (forall name, name ∈ placeholder_names -> name ∈ kw.*1) /\
  (forall name,
     kw_lookup name kw
     = kw_lookup name (template_kwargs lower entity_name project_name)).
Proof.
  intros Hkw. apply elem_of_cons in Hkw as [->|Hkw];
    [|apply list_elem_of_singleton in Hkw as ->]; split; try done.
  - intros name. unfold placeholder_names. simpl.
    rewrite !elem_of_cons, !elem_of_nil. tauto.
  - apply kwargs_same_lookup.
Qed.

Lemma format_checked lower entity_name project_name kw template :
  kw ∈ [ template_kwargs lower entity_name project_name;
         root_kwargs lower entity_name project_name ] ->
  template_check template = true ->
  exists segs out,
    segments template = Ok segs /\
    format template kw = Ok out /\
    substitute kw segs = Ok out /\
    out = render lower template entity_name project_name /\
    seg_lbrace_next not_placeholder_start segs = true.
Proof.
  intros Hkw Hc. unfold template_check in Hc.
  destruct (segments template) as [segs|] eqn:Hsegs; [|discriminate].
  apply andb_prop in Hc as [Hknown Hnext].
  destruct (kwargs_names _ _ _ _ Hkw) as [Hnames Hsame].
  destruct (substitute_known kw segs) as [out Hout].
  { rewrite forallb_forall in Hknown. apply forallb_forall.
    intros [c|name] Hin; [done|]. specialize (Hknown _ Hin). simpl in *.
    apply bool_decide_eq_true_2, Hnames. by apply bool_decide_eq_true_1 in Hknown. }
  exists segs, out. split_and!; try done.
  - by rewrite (format_segments _ _ _ Hsegs).
  - unfold render. rewrite (format_segments _ _ _ Hsegs).
    by rewrite <-(substitute_ext _ _ _ Hsame), Hout.
Qed.

(** No template of the catalog makes [format] fail, whatever the names. *)
Lemma format_TEMPLATES lower entity_name project_name kw tname template :
  kw ∈ [ template_kwargs lower entity_name project_name;
         root_kwargs lower entity_name project_name ] ->
  (tname, template) ∈ TEMPLATES ->
  format template kw = Ok (render lower template entity_name project_name).
Proof.
  intros Hkw Hin.
  destruct (format_checked _ _ _ _ _ Hkw (template_checked _ _ Hin))
    as (segs & out & _ & Hf & _ & -> & _).
  exact Hf.
Qed.

Lemma kw_lookup_no_lbrace lower entity_name project_name name v :
  count_char lbrace project_name = 0 ->
  count_char lbrace entity_name = 0 ->
  count_char lbrace (lower entity_name) = 0 ->
  kw_lookup name (template_kwargs lower entity_name project_name) = Some v ->
  count_char lbrace v = 0.
Proof.
  intros Hp He Hl. unfold template_kwargs. cbn [kw_lookup].
  repeat case_match; congruence.
Qed.

(** C2, as amended. Each template renders without error, to the template
    with every replacement field substituted by its value and every doubled
    brace undoubled. When the project name, the entity name and the lowered
    entity name hold no opening brace, none of the three placeholder tokens
    occurs in the rendered text. (The braces that a supplied value or the
    escaped braces of pyproject.toml bring are copied to the output.) *)
Theorem rendering_replaces_placeholders
  lower entity_name project_name kw tname template :
  (tname, template) ∈ TEMPLATES ->
  kw ∈ [ template_kwargs lower entity_name project_name;
         root_kwargs lower entity_name project_name ] ->
  exists segs out,
    segments template = Ok segs /\
    format template kw = Ok out /\
    substitute kw segs = Ok out /\
    (count_char lbrace project_name = 0 ->
     count_char lbrace entity_name = 0 ->
     count_char lbrace (lower entity_name) = 0 ->
     no_placeholder_left out).
Proof.
  intros Hin Hkw.
  destruct (format_checked _ _ _ _ _ Hkw (template_checked _ _ Hin))
    as (segs & out & Hsegs & Hf & Hsub & _ & Hnext).
  exists segs, out. split_and!; try done.
  intros Hp He Hl tok Htok.
  assert (lbrace_next not_placeholder_start out = true) as Hout.
  { eapply substitute_lbrace_next; [|exact Hnext|exact Hsub].
    intros name v. rewrite (proj2 (kwargs_names _ _ _ _ Hkw)).
    by apply kw_lookup_no_lbrace. }
  unfold placeholder_tokens in Htok.
  repeat (apply elem_of_cons in Htok as [->|Htok]);
    [..|by apply elem_of_nil in Htok];
    by apply (lbrace_next_contains not_placeholder_start).
Qed.

Lemma rendering_replaces_placeholders_witness :
  exists segs out,
    segments pyproject_toml = Ok segs /\
    format pyproject_toml (template_kwargs ascii_lower "Order" "shop") = Ok out /\
    substitute (template_kwargs ascii_lower "Order" "shop") segs = Ok out /\
    no_placeholder_left out.
Proof.
  destruct (rendering_replaces_placeholders ascii_lower "Order" "shop"
              (template_kwargs ascii_lower "Order" "shop")
              "pyproject.toml" pyproject_toml)
    as (segs & out & H1 & H2 & H3 & H4).
  - unfold TEMPLATES. set_solver.
  - set_solver.
  - exists segs, out. split_and!; try done. apply H4; reflexivity.
Defined.

(** C2, as stated, fails: an entity name that holds a placeholder token is
    copied into the output, token and all. *)
Lemma placeholder_left_by_braced_name :
  exists out,
    format entity_template_py (template_kwargs ascii_lower "{entity_name}" "shop")
    = Ok out /\
    ~ no_placeholder_left out.
Proof.
  eexists. split; [vm_compute; reflexivity|].
  intros H. specialize (H "{entity_name}").
  assert ("{entity_name}" ∈ placeholder_tokens) as Hin
    by (unfold placeholder_tokens; set_solver).
  apply H in Hin. vm_compute in Hin. discriminate.
Qed.

(** The escaped braces of pyproject.toml are braces of its output. *)
Example pyproject_keeps_literal_braces :
  exists out,
    format pyproject_toml (template_kwargs ascii_lower "Order" "shop") = Ok out /\
    contains out (dq "{name = 'Your Name', email = 'your.email@example.com'}") = true.
Proof. eexists. split; vm_compute; reflexivity. Qed.

Example format_escapes : format "a{{b}}c" [] = Ok "a{b}c".
Proof. reflexivity. Qed.

Example format_field : format "x = {v}!" [("v", "1")] = Ok "x = 1!".
Proof. reflexivity. Qed.

Example format_missing_key : format "{v}{" [] = Raise (LookupError "v").
Proof. reflexivity. Qed.

Example format_single_rbrace : format "a}b" [("v", "1")] = Raise ValueError.
Proof. reflexivity. Qed.

Example format_unclosed_field : format "a{v" [("v", "1")] = Raise ValueError.
Proof. reflexivity. Qed.

(** ** The file system and the process *)

Lemma entry_nested_ind (P : entry -> Prop) :
  (forall content, P (EFile content)) ->
  (forall items, Forall (fun item => P item.2) items -> P (EDir items)) ->
  forall e, P e.
Proof.
  intros HFile HDir. fix IH 1. intros [content|items]; [apply HFile|].
  apply HDir. induction items as [|[name e] items IHitems]; constructor.
  - apply IH.
  - apply IHitems.
Qed.

Lemma elem_of_flat_map {A B} (f : A -> list B) (l : list A) (b : B) :
  b ∈ flat_map f l <-> exists a, a ∈ l /\ b ∈ f a.
Proof.
  rewrite list_elem_of_In, in_flat_map.
  split; intros (a & Ha & Hb); exists a; by rewrite ?list_elem_of_In in *.
Qed.

Lemma node_at_None t p : node_at t p = None -> p <> [] /\ t !! p = None.
Proof. by destruct p. Qed.

Lemma node_at_nonempty t p : p <> [] -> node_at t p = t !! p.
Proof. by destruct p. Qed.

Lemma node_at_Some_File t p c : node_at t p = Some (File c) -> t !! p = Some (File c).
Proof. by destruct p. Qed.

Lemma node_at_insert_ne t p q n :
  p <> q -> node_at (<[p := n]> t) q = node_at t q.
Proof. intros Hne. destruct q; [done|]. simpl. by rewrite lookup_insert_ne. Qed.

Lemma node_at_insert_eq t p n : p <> [] -> node_at (<[p := n]> t) p = Some n.
Proof. destruct p; [done|]. intros _. simpl. by rewrite lookup_insert_eq. Qed.

Lemma bind_Ok_inv {A B} (m : M A) (k : A -> M B) w w' b :
  bind m k w = (w', Ok b) ->
  exists w1 a, m w = (w1, Ok a) /\ k a w1 = (w', Ok b).
Proof.
  unfold bind. destruct (m w) as [w1 [a|e]]; [eauto|discriminate].
Qed.

Lemma bind_Ok {A B} (m : M A) (k : A -> M B) w w1 a :
  m w = (w1, Ok a) -> bind m k w = k a w1.
Proof. unfold bind. by intros ->. Qed.

Lemma for_each_cons {A} (body : A -> M unit) a l :
  for_each body (a :: l) = (body a ;; for_each body l).
Proof. reflexivity. Qed.

Lemma for_each_nil {A} (body : A -> M unit) : for_each body [] = ret tt.
Proof. reflexivity. Qed.

Lemma run_eta {A} (x : world * result A) r : x.2 = r -> x = (x.1, r).
Proof. destruct x. simpl. by intros ->. Qed.

Example strip_blank : strip_nonempty "  
	" = false.
Proof. reflexivity. Qed.

Example strip_docs_README : strip_nonempty docs_README = true.
Proof. reflexivity. Qed.

Example Path_components : Path "work//./shop/" = ["shop"; "work"].
Proof. vm_compute. reflexivity. Qed.

Example Path_here : Path "." = [].
Proof. vm_compute. reflexivity. Qed.

Example mkdir_needs_parent :
  (Path_mkdir no_fault false false ["b"; "a"] empty_world).2 = Raise FileNotFoundError.
Proof. reflexivity. Qed.

Example mkdir_parents_makes_all :
  files (Path_mkdir no_fault true true ["b"; "a"] empty_world).1
  = <[ ["b"; "a"] := Dir ]> {[ ["a"] := Dir ]}.
Proof. vm_compute. reflexivity. Qed.

Example mkdir_over_file :
  (Path_mkdir no_fault true true ["a"] (World {[ ["a"] := File "x" ]} [])).2
  = Raise FileExistsError.
Proof. reflexivity. Qed.

Example write_into_directory :
  (write_text no_fault ["a"] "x" (World {[ ["a"] := Dir ]} [])).2
  = Raise IsADirectoryError.
Proof. reflexivity. Qed.

Example empty_content_keeps_file :
  files (create_directory_structure no_fault [] [("a", EFile EmptyString)]
           (World {[ ["a"] := File "x" ]} [])).1 !! ["a"]
  = Some (File "x").
Proof. reflexivity. Qed.

Example blank_content_keeps_file :
  files (create_directory_structure no_fault [] [("a", EFile " ")]
           (World {[ ["a"] := File "x" ]} [])).1 !! ["a"]
  = Some (File "x").
Proof. reflexivity. Qed.

Example content_overwrites_file :
  files (create_directory_structure no_fault [] [("a", EFile "y")]
           (World {[ ["a"] := File "x" ]} [])).1 !! ["a"]
  = Some (File "y").
Proof. reflexivity. Qed.

(** *** How the file system evolves *)

Lemma evolves_refl D F t : evolves D F t t.
Proof. intros q. by left. Qed.

Lemma evolves_trans D F t1 t2 t3 :
  evolves D F t1 t2 -> evolves D F t2 t3 -> evolves D F t1 t3.
Proof.
  intros H12 H23 q.
  destruct (H12 q) as [E1|[(HD & Hn & Hd)|(c & HF & Hn & Hc)]],
           (H23 q) as [E2|[(HD' & Hn' & Hd')|(c' & HF' & Hn' & Hc')]];
    try congruence.
  - left. congruence.
  - right; left. rewrite <-E1. done.
  - right; right. rewrite <-E1. eauto.
  - right; left. rewrite E2. done.
  - right; right. rewrite E2. eauto.
  - right; right. eauto.
Qed.

Lemma evolves_mono (D D' : path -> Prop) (F F' : path -> string -> Prop) t t' :
  (forall q, D q -> D' q) -> (forall q c, F q c -> F' q c) ->
  evolves D F t t' -> evolves D' F' t t'.
Proof.
  intros HD HF H q. destruct (H q) as [?|[(?&?&?)|(?&?&?&?)]]; eauto 10.
Qed.

Lemma evolves_insert_dir (D : path -> Prop) (F : path -> string -> Prop) t p :
  D p -> t !! p = None -> evolves D F t (<[p := Dir]> t).
Proof.
  intros HD Hn q. destruct (decide (p = q)) as [<-|Hne].
  - right; left. by rewrite lookup_insert_eq.
  - left. by rewrite lookup_insert_ne.
Qed.

Lemma evolves_insert_file (D : path -> Prop) (F : path -> string -> Prop) t p c :
  F p c -> t !! p <> Some Dir -> evolves D F t (<[p := File c]> t).
Proof.
  intros HF Hn q. destruct (decide (p = q)) as [<-|Hne].
  - right; right. rewrite lookup_insert_eq. eauto.
  - left. by rewrite lookup_insert_ne.
Qed.

(** Nothing is ever removed, and a directory stays a directory. *)
Lemma evolves_is_Some D F t t' q :
  evolves D F t t' -> is_Some (t !! q) -> is_Some (t' !! q).
Proof.
  intros H [n Hn]. destruct (H q) as [E|[(_ & ? & _)|(c & _ & _ & ->)]];
    [rewrite E; eauto|congruence|eauto].
Qed.

Lemma evolves_Dir D F t t' q :
  evolves D F t t' -> node_at t q = Some Dir -> node_at t' q = Some Dir.
Proof.
  intros H. destruct q as [|a q]; [done|]. simpl. intros Hd.
  destruct (H (a :: q)) as [E|[(_ & ? & _)|(_ & _ & ? & _)]]; congruence.
Qed.

Lemma evolves_node_is_Some D F t t' q :
  evolves D F t t' -> is_Some (node_at t q) -> is_Some (node_at t' q).
Proof. destruct q; [done|]. apply evolves_is_Some. Qed.

Lemma evolves_outside (D : path -> Prop) (F : path -> string -> Prop) t t' q :
  evolves D F t t' -> ~ D q -> (forall c, ~ F q c) -> t' !! q = t !! q.
Proof.
  intros H HD HF. destruct (H q) as [?|[(?&_)|(c&?&_)]]; [done..|].
  by destruct (HF c).
Qed.

Lemma evolves_not_written (D : path -> Prop) (F : path -> string -> Prop) t t' q n :
  evolves D F t t' -> (forall c, ~ F q c) -> t !! q = Some n -> t' !! q = Some n.
Proof.
  intros H HF Hn. destruct (H q) as [?|[(_&?&_)|(c&?&_)]]; [|congruence|].
  - congruence.
  - by destruct (HF c).
Qed.

Lemma touches_mono {A} (D D' : path -> Prop) (F F' : path -> string -> Prop) (m : M A) :
  (forall q, D q -> D' q) -> (forall q c, F q c -> F' q c) ->
  touches D F m -> touches D' F' m.
Proof. intros HD HF H w w' r Hm. eapply evolves_mono; eauto. Qed.

Lemma touches_ret {A} D F (a : A) : touches D F (ret a).
Proof. intros w w' r [= <- _]. apply evolves_refl. Qed.

Lemma touches_lift {A} D F (x : result A) : touches D F (lift x).
Proof. intros w w' r [= <- _]. apply evolves_refl. Qed.

Lemma touches_print D F line : touches D F (print line).
Proof. intros w w' r [= <- _]. apply evolves_refl. Qed.

Lemma touches_bind {A B} D F (m : M A) (k : A -> M B) :
  touches D F m -> (forall a, touches D F (k a)) -> touches D F (bind m k).
Proof.
  intros Hm Hk w w' r. unfold bind.
  destruct (m w) as [w1 [a|e]] eqn:E.
  - intros Hka. eapply evolves_trans; [eapply Hm|eapply Hk]; eauto.
  - intros [= <- _]. eapply Hm; eauto.
Qed.

Lemma touches_for_each {A} D F (body : A -> M unit) l :
  (forall a, a ∈ l -> touches D F (body a)) -> touches D F (for_each body l).
Proof.
  induction l as [|a l IH]; intros Hbody.
  - apply touches_ret.
  - apply touches_bind; [apply Hbody; left|].
    intros _. apply IH. intros b Hb. apply Hbody. by right.
Qed.

Section FileSystem.

Variable fault : fsop -> fs -> bool.

Lemma touches_Path_exists D F p : touches D F (Path_exists p).
Proof. intros w w' r [= <- _]. apply evolves_refl. Qed.

Lemma os_mkdir_cases p w w' r :
  os_mkdir fault p w = (w', r) ->
  (w' = w /\ exists e, r = Raise e /\ is_Exception e = true) \/
  (w' = World (<[p := Dir]> (files w)) (stdout w) /\ r = Ok tt /\
   p <> [] /\ files w !! p = None /\ node_at (files w) (parent p) = Some Dir /\
   fault (OpMkdir p) (files w) = false).
Proof.
  unfold os_mkdir.
  destruct (node_at (files w) p) eqn:Hp; [intros [= <- <-]; left; eauto|].
  apply node_at_None in Hp as [Hne Hp].
  destruct (node_at (files w) (parent p)) as [[|c]|] eqn:Hup;
    [|intros [= <- <-]; left; eauto..].
  destruct (fault _ _) eqn:Hf; intros [= <- <-]; [left; eauto|].
  right. done.
Qed.

Lemma mkdir_once_cases exist_ok p w w' r :
  mkdir_once fault exist_ok p w = (w', r) ->
  (w' = w /\ exists e, r = Raise e /\ is_Exception e = true) \/
  (w' = w /\ r = Ok tt /\ exist_ok = true /\ node_at (files w) p = Some Dir) \/
  (w' = World (<[p := Dir]> (files w)) (stdout w) /\ r = Ok tt /\
   p <> [] /\ files w !! p = None /\ node_at (files w) (parent p) = Some Dir /\
   fault (OpMkdir p) (files w) = false).
Proof.
  unfold mkdir_once.
  destruct (os_mkdir fault p w) as [w1 r1] eqn:E.
  apply os_mkdir_cases in E as [(-> & e & -> & He)|(-> & -> & H)].
  - assert (forall x : world * result unit,
      (if negb exist_ok || negb (dir_at w p) then (w, Raise e) else (w, Ok tt)) = x ->
      x = (w', r) ->
      (w' = w /\ exists e, r = Raise e /\ is_Exception e = true) \/
      (w' = w /\ r = Ok tt /\ exist_ok = true /\ node_at (files w) p = Some Dir) \/
      (w' = World (<[p := Dir]> (files w)) (stdout w) /\ r = Ok tt /\
       p <> [] /\ files w !! p = None /\ node_at (files w) (parent p) = Some Dir /\
       fault (OpMkdir p) (files w) = false)) as Hswallow.
    { intros x <-. destruct exist_ok; simpl.
      - unfold dir_at. case_bool_decide as Hd; simpl; intros [= <- <-]; eauto 10.
      - intros [= <- <-]; eauto 10. }
    destruct e; try (intros [= <- <-]; left; eauto); by eapply Hswallow.
  - intros [= <- <-]. right; right. done.
Qed.

Lemma touches_mkdir_once exist_ok p :
  touches (fun q => q = p) nothing (mkdir_once fault exist_ok p).
Proof.
  intros w w' r [[-> _]|[(-> & _)|(-> & _ & _ & Hp & _)]]%mkdir_once_cases.
  - apply evolves_refl.
  - apply evolves_refl.
  - by apply evolves_insert_dir.
Qed.

Lemma mkdir_parents_unfold exist_ok p w :
  mkdir_parents fault exist_ok p w =
  match os_mkdir fault p w with
  | (w', Ok a) => (w', Ok a)
  | (w', Raise FileNotFoundError) =>
      match p with
      | [] => (w', Raise FileNotFoundError)
      | _ :: up => (mkdir_parents fault true up ;; mkdir_once fault exist_ok p) w'
      end
  | (w', Raise e) =>
      if negb exist_ok || negb (dir_at w' p) then (w', Raise e)
      else (w', Ok tt)
  end.
Proof. by destruct p. Qed.

(** [mkdir(parents=True)] makes directories at the path and above it,
    nothing else; when it returns, the path is a directory. *)
Lemma mkdir_parents_spec exist_ok p : forall w w' r,
  mkdir_parents fault exist_ok p w = (w', r) ->
  evolves (fun q => q `suffix_of` p) nothing (files w) (files w') /\
  stdout w' = stdout w /\
  (r = Ok tt /\ node_at (files w') p = Some Dir \/
   exists e, r = Raise e /\ is_Exception e = true).
Proof.
  revert exist_ok. induction p as [|a up IH]; intros exist_ok w w' r;
    rewrite mkdir_parents_unfold;
    destruct (os_mkdir fault _ w) as [w1 r1] eqn:E;
    apply os_mkdir_cases in E as [(-> & e & -> & He)|(-> & -> & Hne & Hp & Hup & Hf)].
  - assert (node_at (files w) [] = Some Dir) as Hd by done.
    destruct e, exist_ok; simpl; intros [= <- <-];
      (split; [apply evolves_refl|split; [done|eauto]]).
  - done.
  - assert (forall x : world * result unit,
      (if negb exist_ok || negb (dir_at w (a :: up)) then (w, Raise e) else (w, Ok tt)) = x ->
      x = (w', r) ->
      evolves (fun q => q `suffix_of` a :: up) nothing (files w) (files w') /\
      stdout w' = stdout w /\
      (r = Ok tt /\ node_at (files w') (a :: up) = Some Dir \/
       exists e, r = Raise e /\ is_Exception e = true)) as Hswallow.
    { intros x <-. destruct exist_ok; simpl.
      - unfold dir_at. case_bool_decide as Hd; simpl; intros [= <- <-];
          (split; [apply evolves_refl|split; [done|eauto]]).
      - intros [= <- <-]. split; [apply evolves_refl|split; [done|eauto]]. }
    destruct e; try (by eapply Hswallow);
      try (intros [= <- <-]; split; [apply evolves_refl|split; [done|eauto]]).
    unfold bind. destruct (mkdir_parents fault true up w) as [w1 r1] eqn:E1.
    apply IH in E1 as (Hev & Hout & Hr).
    assert (evolves (fun q => q `suffix_of` a :: up) nothing (files w) (files w1)) as Hev'.
    { eapply evolves_mono; [| |exact Hev]; [|done].
      intros q Hq. by apply suffix_cons_r. }
    destruct Hr as [[-> Hd]|(e' & -> & He')].
    + intros [(-> & e'' & -> & He'')|[(-> & -> & _ & Hd')|(-> & -> & _ & Hp & _)]]%mkdir_once_cases.
      * split; [done|split; [done|]]. right. eauto.
      * split; [done|split; [done|]]. left. done.
      * split; [|split; [done|]].
        -- eapply evolves_trans; [exact Hev'|]. by apply evolves_insert_dir.
        -- left. split; [done|]. simpl. by rewrite lookup_insert_eq.
    + intros [= <- <-]. split; [done|split; [done|eauto]].
  - intros [= <- <-]. split; [by apply evolves_insert_dir|split; [done|]].
    left. split; [done|]. simpl. by rewrite lookup_insert_eq.
Qed.

Lemma mkdir_parents_existing exist_ok p w :
  node_at (files w) p = Some Dir ->
  mkdir_parents fault exist_ok p w
  = if exist_ok then (w, Ok tt) else (w, Raise FileExistsError).
Proof.
  intros Hd. rewrite mkdir_parents_unfold. unfold os_mkdir, dir_at.
  rewrite Hd. rewrite bool_decide_eq_true_2 by done. by destruct exist_ok.
Qed.

Lemma touches_Path_mkdir parents exist_ok p :
  touches (fun q => q `suffix_of` p) nothing (Path_mkdir fault parents exist_ok p).
Proof.
  destruct parents; simpl.
  - intros w w' r H. by apply mkdir_parents_spec in H as (? & _).
  - eapply touches_mono; [| |apply touches_mkdir_once]; [|done].
    by intros q ->.
Qed.

Lemma write_text_cases p content w w' r :
  write_text fault p content w = (w', r) ->
  (w' = w /\ exists e, r = Raise e /\ is_Exception e = true) \/
  (w' = World (<[p := File content]> (files w)) (stdout w) /\ r = Ok tt /\
   p <> [] /\ files w !! p <> Some Dir /\
   fault (OpWrite p content) (files w) = false).
Proof.
  unfold write_text.
  destruct (node_at (files w) p) as [[|old]|] eqn:Hp.
  - intros [= <- <-]; left; eauto.
  - apply node_at_Some_File in Hp as Hl.
    destruct (fault _ _) eqn:Hf; intros [= <- <-]; [left; eauto|].
    right. split_and!; try done; [by destruct p|congruence].
  - apply node_at_None in Hp as [Hne Hl].
    destruct (node_at (files w) (parent p)) as [[|c]|] eqn:Hup;
      [|intros [= <- <-]; left; eauto..].
    destruct (fault _ _) eqn:Hf; intros [= <- <-]; [left; eauto|].
    right. split_and!; try done. congruence.
Qed.

Lemma write_text_Ok_inv p content w w' a :
  write_text fault p content w = (w', Ok a) ->
  files w' = <[p := File content]> (files w).
Proof.
  intros [(_ & ? & ? & _)|(-> & _)]%write_text_cases; done.
Qed.

Lemma touches_write_text p content :
  touches nowhere (fun q c => q = p /\ c = content) (write_text fault p content).
Proof.
  intros w w' r [[-> _]|(-> & _ & _ & Hp & _)]%write_text_cases.
  - apply evolves_refl.
  - by apply evolves_insert_file.
Qed.

Lemma touches_create_file p content :
  touches (fun q => q `suffix_of` parent p) (fun q c => q = p /\ c = content)
    (create_file fault p content).
Proof.
  unfold create_file. apply touches_bind.
  { eapply touches_mono; [| |apply touches_Path_mkdir]; done. }
  intros _. apply touches_bind; [apply touches_Path_exists|].
  intros e. destruct (negb e || strip_nonempty content).
  - eapply touches_mono; [| |apply touches_write_text]; done.
  - apply touches_ret.
Qed.

Lemma suffix_parent (q p : path) :
  q `suffix_of` p -> q = p \/ q `suffix_of` parent p.
Proof.
  destruct p as [|a p]; simpl.
  - intros ->%suffix_nil_inv. by left.
  - intros H. destruct q as [|b q]; [right; apply suffix_nil|].
    apply suffix_cons_inv in H as [->|H]; eauto.
Qed.

Lemma touches_create_entry e : forall p,
  touches (fun q => q `suffix_of` parent p \/ (q, Dir) ∈ entry_nodes p e)
          (fun q c => (q, File c) ∈ entry_nodes p e)
          (create_entry fault p e).
Proof.
  induction e as [content|items IH] using entry_nested_ind; intros p.
  - eapply touches_mono; [| |apply touches_create_file].
    + by left.
    + intros q c [-> ->]. simpl. by left.
  - change (create_entry fault p (EDir items)) with
      (Path_mkdir fault true true p ;;
       for_each (fun item => create_entry fault (item.1 :: p) item.2) items).
    assert (forall q, q `suffix_of` p ->
              q `suffix_of` parent p \/ (q, Dir) ∈ entry_nodes p (EDir items)) as Hup.
    { intros q [->|H]%suffix_parent; [right; simpl; by left|by left]. }
    apply touches_bind.
    { eapply touches_mono; [| |apply touches_Path_mkdir]; done. }
    intros _. apply touches_for_each. intros item Hitem.
    rewrite Forall_forall in IH.
    eapply touches_mono; [| |apply (IH item Hitem)].
    + intros q [H|H]; [by apply Hup|]. right. simpl. right.
      apply elem_of_flat_map. eauto.
    + intros q c H. simpl. right.
      apply elem_of_flat_map. eauto.
Qed.

Lemma touches_create_directory_structure base s :
  touches (fun q => q `suffix_of` base \/ (q, Dir) ∈ structure_nodes base s)
          (fun q c => (q, File c) ∈ structure_nodes base s)
          (create_directory_structure fault base s).
Proof.
  apply touches_for_each. intros item Hitem.
  eapply touches_mono; [| |apply touches_create_entry].
  - intros q [H|H]; [by left|]. right. apply elem_of_flat_map. eauto.
  - intros q c H. apply elem_of_flat_map. eauto.
Qed.

(** *** What a successful run leaves behind *)

Lemma entry_nodes_below e : forall p q n,
  (q, n) ∈ entry_nodes p e -> p `suffix_of` q.
Proof.
  induction e as [content|items IH] using entry_nested_ind; intros p q n; simpl.
  - by intros [= -> _]%list_elem_of_singleton.
  - intros [[= -> _]|(item & Hitem & H)%elem_of_flat_map]%elem_of_cons; [done|].
    rewrite Forall_forall in IH. apply (IH item Hitem) in H.
    by eapply suffix_cons_l.
Qed.

Lemma suffix_same_parent (a b : string) (p q : path) :
  a :: p `suffix_of` q -> b :: p `suffix_of` q -> a = b.
Proof.
  intros [k1 ->] [k2 H].
  assert (length k1 = length k2) as Hlen.
  { apply (f_equal length) in H. rewrite !length_app in H. simpl in H. lia. }
  apply app_inj_1 in H as [_ H]; [congruence|done].
Qed.

Lemma settled_dir_unfold p items t :
  settled p (EDir items) t <->
  node_at t p = Some Dir /\
  Forall (fun item => settled (item.1 :: p) item.2 t) items.
Proof.
  simpl. apply and_iff_compat_l.
  induction items as [|item items IH]; [by split|].
  rewrite Forall_cons, IH. done.
Qed.

Lemma settled_preserved (D : path -> Prop) (F : path -> string -> Prop) e :
  forall p t t',
  settled p e t ->
  evolves D F t t' ->
  (forall x c, F x c -> ~ p `suffix_of` x) ->
  settled p e t'.
Proof.
  induction e as [content|items IH] using entry_nested_ind; intros p t t' Hs Hev HF.
  - destruct Hs as [Hup Hp]. split; [by eapply evolves_Dir|].
    destruct (strip_nonempty content).
    + destruct p as [|a p]; [done|]. simpl in *.
      eapply evolves_not_written; [exact Hev| |done].
      intros c HFp. by apply (HF _ _ HFp).
    + by eapply evolves_node_is_Some.
  - apply settled_dir_unfold in Hs as [Hd Hitems].
    apply settled_dir_unfold. split; [by eapply evolves_Dir|].
    rewrite Forall_forall in *. intros item Hitem.
    eapply (IH item Hitem); [by apply Hitems|exact Hev|].
    intros x c HFx Hsuf. apply (HF x c HFx). by eapply suffix_cons_l.
Qed.

Lemma create_file_settles p content w w' :
  create_file fault p content w = (w', Ok tt) ->
  settled p (EFile content) (files w').
Proof.
  unfold create_file.
  intros (w1 & [] & Hmk & (w2 & e & Hex & Hwr)%bind_Ok_inv)%bind_Ok_inv.
  change (Path_mkdir fault true true (parent p)) with
    (mkdir_parents fault true (parent p)) in Hmk.
  apply mkdir_parents_spec in Hmk as (_ & _ & [[_ Hup]|(? & ? & _)]); [|done].
  injection Hex as <- <-.
  destruct (negb _ || strip_nonempty content) eqn:Hcond.
  - apply write_text_cases in Hwr as [(_ & ? & ? & _)|(-> & _ & Hne & _)]; [done|].
    simpl. assert (parent p <> p) as Hpp.
    { destruct p; [done|]. simpl. intros H. apply (f_equal length) in H.
      simpl in H. lia. }
    split; [by rewrite node_at_insert_ne|].
    rewrite node_at_insert_eq by done. by destruct (strip_nonempty content).
  - injection Hwr as <-. apply orb_false_iff in Hcond as [He Hs].
    simpl. rewrite Hs.
    split; [done|]. apply negb_false_iff, bool_decide_eq_true_1 in He. done.
Qed.

Lemma touches_items p items :
  touches anywhere
    (fun x _ => exists other, other ∈ items /\ other.1 :: p `suffix_of` x)
    (for_each (fun item => create_entry fault (item.1 :: p) item.2) items).
Proof.
  apply touches_for_each. intros other Hother.
  eapply touches_mono; [| |apply touches_create_entry]; [done|].
  intros q c H. simpl in H. exists other. split; [done|].
  by eapply entry_nodes_below.
Qed.

Lemma items_settle p items : forall w w',
  NoDup items.*1 ->
  Forall (fun item => forall q w w',
            create_entry fault q item.2 w = (w', Ok tt) ->
            settled q item.2 (files w')) items ->
  for_each (fun item => create_entry fault (item.1 :: p) item.2) items w = (w', Ok tt) ->
  Forall (fun item => settled (item.1 :: p) item.2 (files w')) items.
Proof.
  induction items as [|item items IH]; intros w w' Hnd Hall; [constructor|].
  simpl in Hnd. apply NoDup_cons in Hnd as [Hfresh Hnd].
  apply Forall_cons in Hall as [Hitem Hall].
  cbn [for_each].
  intros (w1 & [] & Hfirst & Hrest)%bind_Ok_inv.
  constructor; [|by eapply IH].
  eapply settled_preserved; [by eapply Hitem|by eapply touches_items|].
  intros x _ (other & Hother & Hsuf) Hsuf'. apply Hfresh.
  rewrite (suffix_same_parent _ _ _ _ Hsuf' Hsuf).
  apply list_elem_of_fmap. eauto.
Qed.

Lemma wf_entry_dir items :
  wf_entry (EDir items) = true ->
  NoDup items.*1 /\ Forall (fun item => wf_entry item.2 = true) items.
Proof.
  simpl. intros [Hnd Hall]%andb_prop. split.
  - by apply bool_decide_eq_true_1 in Hnd.
  - rewrite forallb_forall in Hall. apply Forall_forall.
    intros item Hitem. apply Hall. by apply list_elem_of_In.
Qed.

(** A run of the materializer that returns leaves every item settled. *)
Lemma create_entry_settles e : forall p w w',
  wf_entry e = true ->
  create_entry fault p e w = (w', Ok tt) ->
  settled p e (files w').
Proof.
  induction e as [content|items IH] using entry_nested_ind; intros p w w' Hwf.
  - apply create_file_settles.
  - apply wf_entry_dir in Hwf as [Hnd Hwf].
    change (create_entry fault p (EDir items)) with
      (Path_mkdir fault true true p ;;
       for_each (fun item => create_entry fault (item.1 :: p) item.2) items).
    intros (w1 & [] & Hmk & Hitems)%bind_Ok_inv.
    change (Path_mkdir fault true true p) with (mkdir_parents fault true p) in Hmk.
    apply mkdir_parents_spec in Hmk as (_ & _ & [[_ Hd]|(? & ? & _)]); [|done].
    apply settled_dir_unfold. split.
    + eapply evolves_Dir; [by eapply touches_items|done].
    + eapply items_settle; [done| |done].
      rewrite Forall_forall in *. intros item Hitem q u u'.
      by apply IH, Hwf.
Qed.

Lemma create_directory_structure_settles base s w w' :
  wf_structure s = true ->
  create_directory_structure fault base s w = (w', Ok tt) ->
  all_settled base s (files w').
Proof.
  intros [Hnd Hwf]%wf_entry_dir. apply items_settle; [done|].
  rewrite Forall_forall in *. intros item Hitem q u u'.
  by apply create_entry_settles, Hwf.
Qed.

End FileSystem.

(** Where no operation fails, running the materializer over settled items
    changes nothing. *)
Lemma create_entry_settled e : forall p w,
  settled p e (files w) ->
  create_entry no_fault p e w = (w, Ok tt).
Proof.
  induction e as [content|items IH] using entry_nested_ind; intros p w.
  - intros [Hup Hp].
    change (create_entry no_fault p (EFile content)) with
      (create_file no_fault p content).
    unfold create_file.
    change (Path_mkdir no_fault true true (parent p)) with
      (mkdir_parents no_fault true (parent p)).
    rewrite (bind_Ok _ _ _ _ _ (mkdir_parents_existing no_fault true _ _ Hup)).
    unfold bind, Path_exists.
    destruct (strip_nonempty content).
    + rewrite orb_true_r. unfold write_text. rewrite Hp.
      apply node_at_Some_File in Hp. unfold no_fault.
      rewrite insert_id by done. by destruct w.
    + rewrite bool_decide_eq_true_2 by done. done.
  - intros [Hd Hitems]%settled_dir_unfold.
    change (create_entry no_fault p (EDir items)) with
      (Path_mkdir no_fault true true p ;;
       for_each (fun item => create_entry no_fault (item.1 :: p) item.2) items).
    change (Path_mkdir no_fault true true p) with (mkdir_parents no_fault true p).
    rewrite (bind_Ok _ _ _ _ _ (mkdir_parents_existing no_fault true _ _ Hd)).
    clear Hd. induction Hitems as [|item items Hitem Hitems IHitems]; [done|].
    apply Forall_cons in IH as [IHitem IH].
    cbn [for_each]. rewrite (bind_Ok _ _ _ _ _ (IHitem _ _ Hitem)).
    by apply IHitems.
Qed.

Lemma create_directory_structure_settled base s w :
  all_settled base s (files w) ->
  create_directory_structure no_fault base s w = (w, Ok tt).
Proof.
  intros Hall. unfold create_directory_structure.
  induction Hall as [|item items Hitem Hitems IH]; [done|].
  cbn [for_each]. rewrite (bind_Ok _ _ _ _ _ (create_entry_settled _ _ _ Hitem)).
  exact IH.
Qed.

(** C6. Where no operation fails, a second run of the materializer over
    the tree that a first run has made (same root, same structure) returns
    without an exception and leaves the file system as the first run left
    it: every file holds the content it held. *)
Theorem materializer_idempotent base s w w1 :
  wf_structure s = true ->
  create_directory_structure no_fault base s w = (w1, Ok tt) ->
  create_directory_structure no_fault base s w1 = (w1, Ok tt).
Proof.
  intros Hwf Hrun. apply create_directory_structure_settled.
  by eapply create_directory_structure_settles.
Qed.

Lemma materializer_idempotent_witness :
  let w1 := (create_directory_structure no_fault ["shop"] PROJECT_STRUCTURE empty_world).1 in
  create_directory_structure no_fault ["shop"] PROJECT_STRUCTURE w1 = (w1, Ok tt).
Proof.
  apply (materializer_idempotent ["shop"] PROJECT_STRUCTURE empty_world).
  - vm_compute. reflexivity.
  - apply run_eta. vm_compute. reflexivity.
Defined.

(** ** The materializer leaves the rest of the file system alone *)




(** The structure specification of the generator has each key once per
    mapping, and its keys are single plain components. *)
Lemma PROJECT_STRUCTURE_plain :
  wf_structure PROJECT_STRUCTURE = true /\ plain_structure PROJECT_STRUCTURE = true.
Proof. split; vm_compute; reflexivity. Qed.

(** ** When a file item is written *)

(** The guard of the file branch, for any content: the write happens when
    the target was absent before the call or the content is not blank. *)
Lemma create_file_guard fault p content w :
  p <> [] ->
  create_file fault p content w =
  (Path_mkdir fault true true (parent p) ;;
   if bool_decide (node_at (files w) p = None) || strip_nonempty content
   then write_text fault p content
   else ret tt) w.
Proof.
  intros Hne. unfold create_file, bind.
  destruct (Path_mkdir fault true true (parent p) w) as [w1 [[]|e]] eqn:Hmk; [|done].
  apply touches_Path_mkdir in Hmk.
  assert (node_at (files w1) p = node_at (files w) p) as Hsame.
  { destruct p as [|a p]; [done|]. simpl.
    eapply evolves_outside; [exact Hmk| |by intros c []].
    simpl. intros Hsuf. apply suffix_length in Hsuf. simpl in Hsuf. lia. }
  unfold Path_exists. rewrite Hsame.
  replace (negb (bool_decide (is_Some (node_at (files w) p))))
    with (bool_decide (node_at (files w) p = None)); [done|].
  destruct (node_at (files w) p) as [n|].
  - rewrite bool_decide_eq_false_2 by done.
    by rewrite bool_decide_eq_true_2 by eauto.
  - rewrite bool_decide_eq_true_2 by done.
    rewrite bool_decide_eq_false_2; [done|]. apply is_Some_None.
Qed.

Section Outcome.

Variable fault : fsop -> fs -> bool.






End Outcome.

Lemma PROJECT_STRUCTURE_contents base p content :
  (p, File content) ∈ structure_nodes base PROJECT_STRUCTURE ->
  p <> [] /\
  strip_nonempty content = bool_decide (content <> EmptyString).
Proof.
  intros Hin. split.
  - apply elem_of_flat_map in Hin as (item & _ & Hin).
    apply entry_nodes_below, suffix_length in Hin.
    destruct p; [simpl in Hin; lia|done].
  - cbv [structure_nodes PROJECT_STRUCTURE flat_map entry_nodes app fst snd] in Hin.
    repeat (apply elem_of_cons in Hin as [Hin|Hin];
            [try discriminate Hin; injection Hin as _ ->; vm_compute; reflexivity|]).
    by apply elem_of_nil in Hin.
Qed.




(** ** The entry point *)

Lemma main_usage fault lower argv w :
  length argv <> 3 ->
  main fault lower argv w
  = (World (files w) (stdout w ++ usage), Raise (SystemExit 1)).
Proof.
  intros Hlen. unfold main.
  destruct (Nat.eqb_spec (length argv) 3) as [|_]; [done|]. simpl.
  unfold bind, print, sys_exit, raise. simpl.
  by rewrite <-app_assoc.
Qed.

Lemma main_checked fault lower prog project_name entity_name w :
  main fault lower [prog; project_name; entity_name] w
  = (present <- Path_exists (Path project_name) ;;
     if present then
       print ("❌ 目录 " +:+ project_name +:+ " 已存在") ;;
       sys_exit 1
     else
       Path_mkdir fault false false (Path project_name) ;;
       try_except
         (generate fault lower (Path project_name) entity_name project_name)
         (cleanup (Path project_name)))
      (announced project_name entity_name w).
Proof.
  unfold main, announced. cbn [length Nat.eqb negb nth].
  unfold bind at 1 2. unfold print. cbn [files stdout].
  by rewrite <-app_assoc.
Qed.

(** C8. For every argument vector that does not hold exactly two
    arguments after the program name, the entry point prints the usage
    message (its two lines, the usage and the example) and exits with
    status 1, the file system being as it was. *)
Theorem usage_error fault lower argv w :
  length argv <> 3 ->
  exists w',
    main fault lower argv w = (w', Raise (SystemExit 1)) /\
    exit_status (main fault lower argv w).2 = 1%Z /\
    files w' = files w /\
    stdout w' = stdout w ++
      [ "用法: python project_template.py <项目名称> <主要实体名称>";
        "示例: python project_template.py my-ecommerce Product" ].
Proof.
  intros Hlen. rewrite (main_usage _ _ _ _ Hlen).
  eexists. split; [reflexivity|]. split; [reflexivity|]. split; reflexivity.
Qed.

Lemma usage_error_witness :
  exists w',
    main no_fault ascii_lower ["project_template.py"; "shop"] empty_world
    = (w', Raise (SystemExit 1)) /\
    exit_status (main no_fault ascii_lower ["project_template.py"; "shop"] empty_world).2 = 1%Z /\
    files w' = files empty_world /\
    stdout w' = stdout empty_world ++
      [ "用法: python project_template.py <项目名称> <主要实体名称>";
        "示例: python project_template.py my-ecommerce Product" ].
Proof.
  apply (usage_error no_fault ascii_lower ["project_template.py"; "shop"] empty_world).
  simpl. lia.
Defined.

(** C5. When the path that the project name gives exists already, the
    entry point (run with two arguments) changes nothing in the file
    system and exits with status 1. *)
Theorem existing_target_untouched fault lower prog project_name entity_name w :
  is_Some (node_at (files w) (Path project_name)) ->
  exists w',
    main fault lower [prog; project_name; entity_name] w
    = (w', Raise (SystemExit 1)) /\
    exit_status (main fault lower [prog; project_name; entity_name] w).2 = 1%Z /\
    files w' = files w.
Proof.
  intros Hex.
  assert (main fault lower [prog; project_name; entity_name] w
          = (World (files w)
               (stdout (announced project_name entity_name w)
                ++ ["❌ 目录 " +:+ project_name +:+ " 已存在"]),
             Raise (SystemExit 1))) as Hmain.
  { rewrite main_checked. unfold bind at 1. unfold Path_exists.
    cbn [announced files]. rewrite bool_decide_eq_true_2 by done.
    reflexivity. }
  rewrite Hmain. eauto.
Qed.

Lemma existing_target_untouched_witness :
  let w := World {[ ["shop"] := File "mine" ]} [] in
  exists w',
    main no_fault ascii_lower ["project_template.py"; "shop"; "Order"] w
    = (w', Raise (SystemExit 1)) /\
    exit_status (main no_fault ascii_lower ["project_template.py"; "shop"; "Order"] w).2 = 1%Z /\
    files w' = files w.
Proof.
  intros w.
  apply (existing_target_untouched no_fault ascii_lower "project_template.py" "shop" "Order" w).
  vm_compute. eauto.
Defined.

Section Generation.

Variable fault : fsop -> fs -> bool.
Variable lower : string -> string.

Lemma touches_generate_template_files project_path entity_name project_name :
  touches anywhere anything
    (generate_template_files fault lower project_path entity_name project_name).
Proof.
  unfold generate_template_files. apply touches_bind.
  { eapply touches_mono; [| |apply touches_Path_mkdir]; done. }
  intros _. apply touches_for_each. intros [name template] _.
  apply touches_bind; [apply touches_lift|].
  intros content. eapply touches_mono; [| |apply touches_write_text]; done.
Qed.

Lemma touches_generate project_path entity_name project_name :
  touches anywhere anything
    (generate fault lower project_path entity_name project_name).
Proof.
  unfold generate.
  apply touches_bind; [apply touches_print|intros _].
  apply touches_bind;
    [eapply touches_mono; [| |apply touches_create_directory_structure]; done|intros _].
  apply touches_bind; [apply touches_print|intros _].
  apply touches_bind; [apply touches_generate_template_files|intros _].
  apply touches_bind; [apply touches_print|intros _].
  apply touches_bind; [|intros _].
  { apply touches_for_each. intros file_name _.
    apply touches_bind; [apply touches_lift|]. intros template.
    apply touches_bind; [apply touches_lift|].
    intros content. eapply touches_mono; [| |apply touches_write_text]; done. }
  apply touches_bind; [apply touches_print|intros _]. apply touches_print.
Qed.

(** C4. When the project root has been made and an exception is raised
    while the structure is laid out, the templates are rendered or the
    root files are written, the entry point removes the root with all that
    is below it and exits with status 1. *)
Theorem failed_generation_cleans_up prog project_name entity_name w w0 w1 e :
  let root := Path project_name in
  node_at (files w) root = None ->
  Path_mkdir fault false false root (announced project_name entity_name w)
  = (w0, Ok tt) ->
  generate fault lower root entity_name project_name w0 = (w1, Raise e) ->
  is_Exception e = true ->
  exists w2,
    main fault lower [prog; project_name; entity_name] w
    = (w2, Raise (SystemExit 1)) /\
    exit_status (main fault lower [prog; project_name; entity_name] w).2 = 1%Z /\
    node_at (files w2) root = None /\
    (forall q, root `suffix_of` q -> files w2 !! q = None) /\
    (forall q, ~ root `suffix_of` q -> files w2 !! q = files w1 !! q).
Proof.
  intros root Habsent Hmk Hgen He.
  assert (main fault lower [prog; project_name; entity_name] w
          = cleanup root e w1) as Hmain.
  { rewrite main_checked. fold root.
    unfold bind at 1. unfold Path_exists. cbn [announced files].
    rewrite Habsent. rewrite bool_decide_eq_false_2 by apply is_Some_None.
    fold (announced project_name entity_name w).
    rewrite (bind_Ok _ _ _ _ _ Hmk).
    unfold try_except. by rewrite Hgen, He. }
  rewrite Hmain. clear Hmain.
  assert (node_at (files w1) root = Some Dir) as Hdir.
  { eapply evolves_Dir; [eapply touches_generate, Hgen|].
    change (Path_mkdir fault false false root) with (mkdir_once fault false root) in Hmk.
    apply mkdir_once_cases in Hmk as [(_ & ? & ? & _)|[(_ & _ & ? & _)|(-> & _ & Hne & _)]];
      [done..|].
    by apply node_at_insert_eq. }
  apply node_at_None in Habsent as [Hne _].
  assert (cleanup root e w1
          = (World (filter (fun kv : path * node => ~ root `suffix_of` kv.1) (files w1))
               (stdout w1 ++ ["❌ 创建项目时出错: " +:+ exn_message e]),
             Raise (SystemExit 1))) as ->.
  { unfold cleanup, bind, print, Path_exists, shutil_rmtree, sys_exit, raise.
    cbn [files stdout]. rewrite Hdir.
    rewrite bool_decide_eq_true_2 by eauto. cbn [files stdout].
    by rewrite Hdir. }
  eexists. split; [reflexivity|]. split; [reflexivity|]. cbn [files].
  assert (forall q, root `suffix_of` q ->
            filter (fun kv : path * node => ~ root `suffix_of` kv.1) (files w1) !! q = None)
    as Hgone.
  { intros q Hq. apply map_lookup_filter_None. right. intros n _ Hn. by apply Hn. }
  split_and!.
  - destruct root; [done|]. simpl. by apply Hgone.
  - exact Hgone.
  - intros q Hq. destruct (files w1 !! q) as [n|] eqn:Hn.
    + by apply map_lookup_filter_Some.
    + apply map_lookup_filter_None. by left.
Qed.

Lemma print_Ok_inv line w w' a :
  print line w = (w', Ok a) -> files w' = files w.
Proof. by intros [= <- _]. Qed.

Lemma try_except_Ok_inv {A} (body : M A) handler w w' a :
  try_except body handler w = (w', Ok a) ->
  body w = (w', Ok a) \/
  exists w1 e, body w = (w1, Raise e) /\ handler e w1 = (w', Ok a).
Proof.
  unfold try_except. destruct (body w) as [w1 [b|e]].
  - intros [= <- <-]. by left.
  - destruct (is_Exception e); [|discriminate]. right. eauto.
Qed.

Lemma cleanup_exits project_path e w w' r :
  cleanup project_path e w = (w', r) -> exists e', r = Raise e'.
Proof.
  unfold cleanup, bind, print, Path_exists, sys_exit, raise. cbn [files stdout].
  destruct (bool_decide _).
  - destruct (shutil_rmtree _ _) as [w1 [[]|e1]]; intros [= _ <-]; eauto.
  - unfold ret. intros [= _ <-]; eauto.
Qed.

Lemma write_rendered kw tname template p entity_name project_name w :
  kw ∈ [ template_kwargs lower entity_name project_name;
         root_kwargs lower entity_name project_name ] ->
  (tname, template) ∈ TEMPLATES ->
  (content <- lift (format template kw) ;; write_text fault p content) w
  = write_text fault p (render lower template entity_name project_name) w.
Proof.
  intros Hkw Hin. unfold bind, lift.
  by rewrite (format_TEMPLATES _ _ _ _ _ _ Hkw Hin).
Qed.

Lemma TEMPLATES_has :
  ("entity_template.py", entity_template_py) ∈ TEMPLATES /\
  ("repository_interface_template.py", repository_interface_template_py) ∈ TEMPLATES /\
  ("pyproject.toml", pyproject_toml) ∈ TEMPLATES /\
  ("README.md", README_md) ∈ TEMPLATES.
Proof. unfold TEMPLATES. rewrite !elem_of_cons. tauto. Qed.

Lemma TEMPLATES_get_pyproject : TEMPLATES_get "pyproject.toml" = Ok pyproject_toml.
Proof. reflexivity. Qed.

Lemma TEMPLATES_get_README : TEMPLATES_get "README.md" = Ok README_md.
Proof. reflexivity. Qed.

Lemma bind_cong {A B} (m1 m2 : M A) (k1 k2 : A -> M B) w :
  m1 w = m2 w -> (forall a w', k1 a w' = k2 a w') ->
  bind m1 k1 w = bind m2 k2 w.
Proof.
  intros Hm Hk. unfold bind. rewrite Hm.
  destruct (m2 w) as [w' [a|e]]; [apply Hk|done].
Qed.

(** The template loop is four writes of rendered text. *)
Lemma template_loop project_path entity_name project_name w :
  let templates_dir := "templates" :: project_path in
  let text template := render lower template entity_name project_name in
  generate_template_files fault lower project_path entity_name project_name w
  = (Path_mkdir fault false true templates_dir ;;
     write_text fault ("entity_template.py" :: templates_dir)
       (text entity_template_py) ;;
     write_text fault ("repository_interface_template.py" :: templates_dir)
       (text repository_interface_template_py) ;;
     write_text fault ("pyproject.toml" :: templates_dir) (text pyproject_toml) ;;
     write_text fault ("README.md" :: templates_dir) (text README_md) ;;
     ret tt) w.
Proof.
  intros templates_dir text. unfold generate_template_files.
  fold templates_dir. unfold TEMPLATES.
  rewrite !for_each_cons, for_each_nil. cbv beta iota.
  destruct TEMPLATES_has as (H1 & H2 & H3 & H4).
  fold (template_kwargs lower entity_name project_name).
  assert (template_kwargs lower entity_name project_name
          ∈ [ template_kwargs lower entity_name project_name;
              root_kwargs lower entity_name project_name ]) as Hkw by left.
  apply bind_cong; [done|]. intros _ w1.
  apply bind_cong; [by eapply write_rendered|]. intros _ w2.
  apply bind_cong; [by eapply write_rendered|]. intros _ w3.
  apply bind_cong; [by eapply write_rendered|]. intros _ w4.
  apply bind_cong; [by eapply write_rendered|]. done.
Qed.

(** The loop over the root files is two writes of rendered text. *)
Lemma root_files_loop project_path entity_name project_name w :
  let text template := render lower template entity_name project_name in
  for_each
    (fun file_name =>
       template <- lift (TEMPLATES_get file_name) ;;
       content <- lift (format template
                          [ ("project_name", project_name);
                            ("entity_name", entity_name);
                            ("entity_name_lower", lower entity_name) ]) ;;
       write_text fault (file_name :: project_path) content)
    [ "pyproject.toml"; "README.md" ] w
  = (write_text fault ("pyproject.toml" :: project_path) (text pyproject_toml) ;;
     write_text fault ("README.md" :: project_path) (text README_md) ;;
     ret tt) w.
Proof.
  intros text. rewrite !for_each_cons, for_each_nil.
  rewrite TEMPLATES_get_pyproject, TEMPLATES_get_README.
  destruct TEMPLATES_has as (H1 & H2 & H3 & H4).
  fold (root_kwargs lower entity_name project_name).
  assert (root_kwargs lower entity_name project_name
          ∈ [ template_kwargs lower entity_name project_name;
              root_kwargs lower entity_name project_name ]) as Hkw
    by (right; left).
  apply bind_cong; [|intros _ w1; apply bind_cong; [|done]].
  - unfold bind at 1. unfold lift at 1. cbv beta iota. by eapply write_rendered.
  - unfold bind at 1. unfold lift at 1. cbv beta iota. by eapply write_rendered.
Qed.

Lemma path_longer (a : string) (p : path) : p <> a :: p.
Proof. intros H. apply (f_equal length) in H. simpl in H. lia. Qed.

(** What a run of [generate] that returns has written last. *)
Lemma generate_Ok_inv root entity_name project_name w w' :
  let text template := render lower template entity_name project_name in
  generate fault lower root entity_name project_name w = (w', Ok tt) ->
  exists t,
    files w' =
    <["README.md" :: root := File (text README_md)]>
      (<["pyproject.toml" :: root := File (text pyproject_toml)]>
         (<["README.md" :: "templates" :: root := File (text README_md)]>
            (<["pyproject.toml" :: "templates" :: root := File (text pyproject_toml)]> t))).
Proof.
  intros text. unfold generate.
  intros (w1 & [] & _ & H)%bind_Ok_inv.
  apply bind_Ok_inv in H as (w2 & [] & _ & H).
  apply bind_Ok_inv in H as (w3 & [] & _ & H).
  apply bind_Ok_inv in H as (w4 & [] & Htemplates & H).
  apply bind_Ok_inv in H as (w5 & [] & Hp5%print_Ok_inv & H).
  apply bind_Ok_inv in H as (w6 & [] & Hroot & H).
  apply bind_Ok_inv in H as (w7 & [] & Hp7%print_Ok_inv & Hp8%print_Ok_inv).
  rewrite template_loop in Htemplates. rewrite root_files_loop in Hroot.
  apply bind_Ok_inv in Htemplates as (u1 & [] & _ & Htemplates).
  apply bind_Ok_inv in Htemplates as (u2 & [] & _ & Htemplates).
  apply bind_Ok_inv in Htemplates as (u3 & [] & _ & Htemplates).
  apply bind_Ok_inv in Htemplates as (u4 & [] & Hw3%write_text_Ok_inv & Htemplates).
  apply bind_Ok_inv in Htemplates as (u5 & [] & Hw4%write_text_Ok_inv & [= <-]).
  apply bind_Ok_inv in Hroot as (v1 & [] & Hr1%write_text_Ok_inv & Hroot).
  apply bind_Ok_inv in Hroot as (v2 & [] & Hr2%write_text_Ok_inv & [= <-]).
  exists (files u3). rewrite Hp8, Hp7, Hr2, Hr1, Hp5, Hw4, Hw3. done.
Qed.

(** C9. For every project name and entity name, the two renderings of
    pyproject.toml (for templates/ and for the project root) are the same
    text, and so are the two renderings of README.md: the same catalog
    entry with the same three values. Whenever the generator returns, the
    file at the root and the file under templates/ hold that text. *)
Theorem root_files_equal_templates prog project_name entity_name :
  let root := Path project_name in
  exists pyproject readme,
    format pyproject_toml (template_kwargs lower entity_name project_name)
    = Ok pyproject /\
    TEMPLATES_get "pyproject.toml" = Ok pyproject_toml /\
    format pyproject_toml (root_kwargs lower entity_name project_name)
    = Ok pyproject /\
    format README_md (template_kwargs lower entity_name project_name)
    = Ok readme /\
    TEMPLATES_get "README.md" = Ok README_md /\
    format README_md (root_kwargs lower entity_name project_name)
    = Ok readme /\
    forall w w',
      main fault lower [prog; project_name; entity_name] w = (w', Ok tt) ->
      files w' !! ("pyproject.toml" :: root) = Some (File pyproject) /\
      files w' !! ("pyproject.toml" :: "templates" :: root) = Some (File pyproject) /\
      files w' !! ("README.md" :: root) = Some (File readme) /\
      files w' !! ("README.md" :: "templates" :: root) = Some (File readme).
Proof.
  intros root.
  exists (render lower pyproject_toml entity_name project_name),
         (render lower README_md entity_name project_name).
  destruct TEMPLATES_has as (H1 & H2 & H3 & H4).
  split_and!.
  - eapply format_TEMPLATES; [left|done].
  - reflexivity.
  - eapply format_TEMPLATES; [right; left|done].
  - eapply format_TEMPLATES; [left|done].
  - reflexivity.
  - eapply format_TEMPLATES; [right; left|done].
  - intros w w'. rewrite main_checked. fold root.
    intros (wa & present & _ & H)%bind_Ok_inv.
    destruct present.
    { unfold bind, print, sys_exit, raise in H. discriminate. }
    apply bind_Ok_inv in H as (wb & [] & _ & H).
    apply try_except_Ok_inv in H as [H|(w1 & e & _ & H)].
    2: { apply cleanup_exits in H as [? [=]]. }
    apply generate_Ok_inv in H as [t ->].
    assert ("templates" :: root <> root) as Hne
      by (intros Hp; by apply (path_longer "templates" root)).
    split_and!.
    + rewrite lookup_insert_ne by congruence. by rewrite lookup_insert_eq.
    + rewrite !lookup_insert_ne by congruence. by rewrite lookup_insert_eq.
    + by rewrite lookup_insert_eq.
    + rewrite !lookup_insert_ne by congruence. by rewrite lookup_insert_eq.
Qed.

End Generation.

Lemma failed_generation_cleans_up_witness :
  exists w2,
    main readme_write_fails ascii_lower ["project_template.py"; "shop"; "Order"] empty_world
    = (w2, Raise (SystemExit 1)) /\
    exit_status (main readme_write_fails ascii_lower
                   ["project_template.py"; "shop"; "Order"] empty_world).2 = 1%Z /\
    node_at (files w2) ["shop"] = None.
Proof.
  edestruct (failed_generation_cleans_up readme_write_fails ascii_lower
               "project_template.py" "shop" "Order" empty_world)
    as (w2 & Hmain & Hstatus & Hroot & _).
  - reflexivity.
  - apply run_eta. vm_compute. reflexivity.
  - apply (run_eta _ (Raise OSError)). vm_compute. reflexivity.
  - reflexivity.
  - exists w2. split_and!; [exact Hmain|exact Hstatus|exact Hroot].
Defined.

Lemma root_files_equal_templates_witness :
  exists pyproject readme,
    files (main no_fault ascii_lower ["project_template.py"; "shop"; "Order"] empty_world).1
      !! ["pyproject.toml"; "shop"] = Some (File pyproject) /\
    files (main no_fault ascii_lower ["project_template.py"; "shop"; "Order"] empty_world).1
      !! ["pyproject.toml"; "templates"; "shop"] = Some (File pyproject) /\
    files (main no_fault ascii_lower ["project_template.py"; "shop"; "Order"] empty_world).1
      !! ["README.md"; "shop"] = Some (File readme) /\
    files (main no_fault ascii_lower ["project_template.py"; "shop"; "Order"] empty_world).1
      !! ["README.md"; "templates"; "shop"] = Some (File readme).
Proof.
  destruct (root_files_equal_templates no_fault ascii_lower
              "project_template.py" "shop" "Order")
    as (pyproject & readme & _ & _ & _ & _ & _ & _ & H).
  exists pyproject, readme.
  apply (H empty_world). apply run_eta. vm_compute. reflexivity.
Defined.

(** ** A run on a fresh target *)

Lemma plant_cons q n l t : plant ((q, n) :: l) t = plant l (<[q := n]> t).
Proof. reflexivity. Qed.

Lemma plant_app l1 l2 t : plant (l1 ++ l2) t = plant l2 (plant l1 t).
Proof. unfold plant. by rewrite foldl_app. Qed.

Lemma under_app base l1 l2 : under base (l1 ++ l2) = under base l1 ++ under base l2.
Proof. unfold under. by rewrite map_app. Qed.

Lemma lookup_plant l : forall t q,
  plant l t !! q = match planted q l with Some n => Some n | None => t !! q end.
Proof.
  induction l as [|[q0 n0] l IH]; intros t q; [done|].
  rewrite plant_cons, IH. simpl. destruct (planted q l); [done|].
  rewrite lookup_insert. case_decide; case_bool_decide; done.
Qed.

Lemma planted_under base rel l :
  planted (rel ++ base) (under base l) = planted rel l.
Proof.
  induction l as [|[q n] l IH]; [done|]. simpl. rewrite IH.
  destruct (planted rel l); [done|].
  repeat case_bool_decide; try done; simplify_list_eq; done.
Qed.

Lemma lookup_plant_under base l t rel :
  plant (under base l) t !! (rel ++ base)
  = match planted rel l with Some n => Some n | None => t !! (rel ++ base) end.
Proof. by rewrite lookup_plant, planted_under. Qed.

Lemma plant_outside l t q :
  (forall n, (q, n) ∉ l) -> plant l t !! q = t !! q.
Proof.
  revert t. induction l as [|[q0 n0] l IH]; intros t Hq; [done|].
  rewrite plant_cons, IH.
  - apply lookup_insert_ne. intros ->. apply (Hq n0). left.
  - intros n Hn. apply (Hq n). by right.
Qed.

Lemma dom_plant l t : dom (plant l t) = dom t ∪ list_to_set l.*1.
Proof.
  revert t. induction l as [|[q n] l IH]; intros t.
  - simpl. by rewrite (right_id_L ∅ (∪)).
  - rewrite plant_cons, IH, dom_insert_L. simpl.
    by rewrite (comm_L (∪) {[q]} (dom t)), (assoc_L (∪)).
Qed.

Lemma entry_nodes_under base e : forall rel,
  entry_nodes (rel ++ base) e = under base (entry_nodes rel e).
Proof.
  induction e as [content|items IH] using entry_nested_ind; intros rel; [done|].
  cbn [entry_nodes]. change (under base ((rel, Dir) :: ?l))
    with ((rel ++ base, Dir) :: under base l). f_equal.
  induction IH as [|item items Hitem _ IHitems]; [done|].
  cbn [flat_map]. rewrite under_app, <-IHitems. f_equal.
  apply (Hitem (item.1 :: rel)).
Qed.

Lemma structure_nodes_under base s :
  structure_nodes base s = under base (structure_nodes [] s).
Proof.
  unfold structure_nodes. induction s as [|item s IH]; [done|].
  cbn [flat_map]. rewrite under_app, <-IH. f_equal.
  apply (entry_nodes_under base item.2 [item.1]).
Qed.

Lemma create_file_fresh p content w :
  p <> [] ->
  node_at (files w) (parent p) = Some Dir ->
  files w !! p = None ->
  create_file no_fault p content w
  = (World (<[p := File content]> (files w)) (stdout w), Ok tt).
Proof.
  intros Hne Hup Hp. rewrite create_file_guard by done.
  change (Path_mkdir no_fault true true (parent p)) with
    (mkdir_parents no_fault true (parent p)).
  rewrite (bind_Ok _ _ _ _ _ (mkdir_parents_existing no_fault true _ _ Hup)).
  rewrite node_at_nonempty, Hp by done.
  rewrite bool_decide_eq_true_2 by done. simpl.
  unfold write_text. by rewrite node_at_nonempty, Hp, Hup.
Qed.

Lemma mkdir_parents_fresh p w :
  p <> [] ->
  node_at (files w) (parent p) = Some Dir ->
  files w !! p = None ->
  mkdir_parents no_fault true p w
  = (World (<[p := Dir]> (files w)) (stdout w), Ok tt).
Proof.
  intros Hne Hup Hp. rewrite mkdir_parents_unfold. unfold os_mkdir.
  by rewrite node_at_nonempty, Hp, Hup.
Qed.

Lemma items_fresh p items : forall w,
  NoDup items.*1 ->
  Forall (fun item => forall q w,
            q <> [] ->
            node_at (files w) (parent q) = Some Dir ->
            (forall x, q `suffix_of` x -> files w !! x = None) ->
            create_entry no_fault q item.2 w
            = (World (plant (entry_nodes q item.2) (files w)) (stdout w), Ok tt))
         items ->
  node_at (files w) p = Some Dir ->
  (forall item x, item ∈ items -> item.1 :: p `suffix_of` x -> files w !! x = None) ->
  for_each (fun item => create_entry no_fault (item.1 :: p) item.2) items w
  = (World (plant (flat_map (fun item => entry_nodes (item.1 :: p) item.2) items)
              (files w)) (stdout w), Ok tt).
Proof.
  induction items as [|item items IH]; intros w Hnd Hall Hd Hfresh.
  { by destruct w. }
  simpl in Hnd. apply NoDup_cons in Hnd as [Hname Hnd].
  apply Forall_cons in Hall as [Hitem Hall].
  rewrite for_each_cons. cbn [flat_map]. rewrite plant_app.
  erewrite bind_Ok; last first.
  { apply Hitem; [done|done|]. intros x Hx. eapply Hfresh; [left|done]. }
  assert (forall x, ~ item.1 :: p `suffix_of` x ->
            plant (entry_nodes (item.1 :: p) item.2) (files w) !! x = files w !! x)
    as Hsame.
  { intros x Hx. apply plant_outside. intros n Hn.
    by apply Hx, (entry_nodes_below _ _ _ _ Hn). }
  rewrite IH; [done|done|done| |].
  - cbn [files]. destruct p as [|a p]; [done|]. simpl in *.
    rewrite Hsame; [done|]. intros Hsuf. apply suffix_length in Hsuf.
    simpl in Hsuf. lia.
  - cbn [files]. intros other x Hother Hx. rewrite Hsame.
    + eapply Hfresh; [by right|done].
    + intros Hx'. apply Hname.
      rewrite (suffix_same_parent _ _ _ _ Hx' Hx).
      apply list_elem_of_fmap. eauto.
Qed.

(** Where no operation fails, an item laid out where nothing is yet
    becomes exactly the nodes it stands for. *)
Lemma create_entry_fresh e : forall p w,
  wf_entry e = true ->
  p <> [] ->
  node_at (files w) (parent p) = Some Dir ->
  (forall x, p `suffix_of` x -> files w !! x = None) ->
  create_entry no_fault p e w
  = (World (plant (entry_nodes p e) (files w)) (stdout w), Ok tt).
Proof.
  induction e as [content|items IH] using entry_nested_ind;
    intros p w Hwf Hne Hup Hfresh.
  - apply create_file_fresh; [done|done|]. by apply Hfresh.
  - apply wf_entry_dir in Hwf as [Hnd Hwf].
    change (create_entry no_fault p (EDir items)) with
      (Path_mkdir no_fault true true p ;;
       for_each (fun item => create_entry no_fault (item.1 :: p) item.2) items).
    change (Path_mkdir no_fault true true p) with (mkdir_parents no_fault true p).
    erewrite bind_Ok; last by (apply mkdir_parents_fresh; [done|done|by apply Hfresh]).
    cbn [entry_nodes]. rewrite plant_cons.
    rewrite items_fresh; [done|done| | |].
    + rewrite Forall_forall in *. intros item Hitem q u.
      by apply IH, Hwf.
    + cbn [files]. by apply node_at_insert_eq.
    + cbn [files]. intros item x Hitem Hx. rewrite lookup_insert_ne.
      * apply Hfresh. by eapply suffix_cons_l.
      * intros ->. apply suffix_length in Hx. simpl in Hx. lia.
Qed.

Lemma create_directory_structure_fresh base s w :
  wf_structure s = true ->
  node_at (files w) base = Some Dir ->
  (forall item x, item ∈ s -> item.1 :: base `suffix_of` x -> files w !! x = None) ->
  create_directory_structure no_fault base s w
  = (World (plant (structure_nodes base s) (files w)) (stdout w), Ok tt).
Proof.
  intros [Hnd Hwf]%wf_entry_dir Hd Hfresh. apply items_fresh; try done.
  rewrite Forall_forall in *. intros item Hitem q u.
  by apply create_entry_fresh, Hwf.
Qed.

(** In a well-formed file system nothing lies below a path that does not
    exist. *)
Lemma nothing_below t root :
  wf_fs t -> root <> [] -> t !! root = None ->
  forall x, root `suffix_of` x -> t !! x = None.
Proof.
  intros Hwf Hne Hroot x [k ->].
  induction k as [|a k IH]; [done|].
  destruct (t !! ((a :: k) ++ root)) as [n|] eqn:Hn; [|done].
  pose proof (Hwf a (k ++ root) n Hn) as Hd.
  rewrite node_at_nonempty in Hd by (by destruct k, root).
  by rewrite IH in Hd.
Qed.

Section Fresh.

Variable lower : string -> string.
Variable root : path.
Variable t : fs.
Hypothesis root_nonempty : root <> [].
Hypothesis root_fresh : forall x, root `suffix_of` x -> t !! x = None.

Lemma planted_lookup l rel :
  plant (under root l) t !! (rel ++ root)
  = planted rel l.
Proof.
  rewrite lookup_plant_under. destruct (planted rel l); [done|].
  apply root_fresh. by apply suffix_app_r.
Qed.

Lemma planted_node_at l rel :
  node_at (plant (under root l) t) (rel ++ root) = planted rel l.
Proof.
  rewrite node_at_nonempty by (by destruct rel, root). apply planted_lookup.
Qed.

Lemma plant_snoc l rel n :
  <[rel ++ root := n]> (plant (under root l) t)
  = plant (under root (l ++ [(rel, n)])) t.
Proof. by rewrite under_app, plant_app. Qed.

(** One more directory, one more file, in a project that is being
    planted below a fresh root. *)
Lemma mkdir_planted exist_ok l name rel o :
  planted (name :: rel) l = None ->
  planted rel l = Some Dir ->
  mkdir_once no_fault exist_ok ((name :: rel) ++ root) (World (plant (under root l) t) o)
  = (World (plant (under root (l ++ [(name :: rel, Dir)])) t) o, Ok tt).
Proof.
  intros Hp Hup. unfold mkdir_once, os_mkdir. cbn [files stdout parent tail app].
  change (name :: rel ++ root) with ((name :: rel) ++ root).
  rewrite !planted_node_at, Hp, Hup. unfold no_fault.
  by rewrite plant_snoc.
Qed.

Lemma write_planted l name rel content o :
  planted (name :: rel) l = None ->
  planted rel l = Some Dir ->
  write_text no_fault ((name :: rel) ++ root) content (World (plant (under root l) t) o)
  = (World (plant (under root (l ++ [(name :: rel, File content)])) t) o, Ok tt).
Proof.
  intros Hp Hup. unfold write_text. cbn [files stdout parent tail app].
  change (name :: rel ++ root) with ((name :: rel) ++ root).
  rewrite !planted_node_at, Hp, Hup. unfold no_fault.
  by rewrite plant_snoc.
Qed.

Lemma structure_planted o :
  create_directory_structure no_fault root PROJECT_STRUCTURE
    (World (plant (under root [([], Dir)]) t) o)
  = (World (plant (under root (([], Dir) :: structure_nodes [] PROJECT_STRUCTURE)) t) o,
     Ok tt).
Proof.
  rewrite create_directory_structure_fresh.
  - cbn [files stdout]. rewrite structure_nodes_under.
    change (([], Dir) :: structure_nodes [] PROJECT_STRUCTURE)
      with ([([], @Dir)] ++ structure_nodes [] PROJECT_STRUCTURE).
    by rewrite (under_app root [([], Dir)]), plant_app.
  - vm_compute. reflexivity.
  - cbn [files]. apply (planted_node_at [([], Dir)] []).
  - cbn [files]. intros item x _ Hx.
    rewrite plant_outside.
    + apply root_fresh. by eapply suffix_cons_l.
    + intros n [[= -> _]|[]%elem_of_nil]%elem_of_cons.
      apply suffix_length in Hx. simpl in Hx. lia.
Qed.

(** Where no operation fails, [generate] run on a root that has just been
    made plants the whole project. *)
Lemma generate_planted entity_name project_name o :
  exists o',
    generate no_fault lower root entity_name project_name
      (World (plant (under root [([], Dir)]) t) o)
    = (World (plant (under root (generated lower project_name entity_name)) t) o',
       Ok tt).
Proof.
  unfold generate.
  unfold bind at 1. unfold print at 1. cbn [files stdout].
  rewrite (bind_Ok _ _ _ _ _ (structure_planted _)).
  unfold bind at 1. unfold print at 1. cbn [files stdout].
  unfold bind at 1. rewrite template_loop.
  erewrite bind_Ok;
    last (apply (mkdir_planted true _ "templates" []); vm_compute; reflexivity).
  erewrite bind_Ok;
    last (apply (write_planted _ "entity_template.py" ["templates"]);
          vm_compute; reflexivity).
  erewrite bind_Ok;
    last (apply (write_planted _ "repository_interface_template.py" ["templates"]);
          vm_compute; reflexivity).
  erewrite bind_Ok;
    last (apply (write_planted _ "pyproject.toml" ["templates"]);
          vm_compute; reflexivity).
  erewrite bind_Ok;
    last (apply (write_planted _ "README.md" ["templates"]);
          vm_compute; reflexivity).
  unfold ret at 1.
  unfold bind at 1. unfold print at 1. cbn [files stdout].
  unfold bind at 1. rewrite root_files_loop.
  erewrite bind_Ok;
    last (apply (write_planted _ "pyproject.toml" []); vm_compute; reflexivity).
  erewrite bind_Ok;
    last (apply (write_planted _ "README.md" []); vm_compute; reflexivity).
  unfold ret at 1.
  unfold bind, print. cbn [files stdout].
  eexists. rewrite <-!app_assoc. reflexivity.
Qed.

End Fresh.

(** A run of the generator on a target that does not exist, in a file
    system without failures: the project is planted whole. *)
Lemma main_fresh lower prog project_name entity_name w :
  wf_fs (files w) ->
  node_at (files w) (Path project_name) = None ->
  node_at (files w) (parent (Path project_name)) = Some Dir ->
  exists out,
    main no_fault lower [prog; project_name; entity_name] w
    = (World (plant (under (Path project_name)
                       (generated lower project_name entity_name)) (files w)) out,
       Ok tt).
Proof.
  intros Hwf Habsent Hup.
  destruct (node_at_None _ _ Habsent) as [Hne Hroot].
  pose proof (nothing_below _ _ Hwf Hne Hroot) as Hfresh.
  rewrite main_checked. unfold bind at 1. unfold Path_exists.
  cbn [announced files]. rewrite Habsent.
  rewrite bool_decide_eq_false_2 by apply is_Some_None.
  assert (Path_mkdir no_fault false false (Path project_name)
            (World (files w) (stdout (announced project_name entity_name w)))
          = (World (plant (under (Path project_name) [([], Dir)]) (files w))
               (stdout (announced project_name entity_name w)), Ok tt)) as Hmk.
  { unfold Path_mkdir, mkdir_once, os_mkdir. cbn [files stdout].
    by rewrite Habsent, Hup. }
  cbn [announced stdout] in Hmk. rewrite (bind_Ok _ _ _ _ _ Hmk).
  destruct (generate_planted lower (Path project_name) (files w) Hne Hfresh
              entity_name project_name
              (stdout (announced project_name entity_name w))) as [out Hgen].
  cbn [announced stdout] in Hgen.
  unfold try_except. rewrite Hgen. eauto.
Qed.

Lemma wf_fs_empty : wf_fs ∅.
Proof. intros name p n H. by rewrite lookup_empty in H. Qed.





(** A project name with a directory part that does not exist is another
    input on which C1, as stated, fails: [project_path.mkdir()] makes no
    parents, nothing is caught, and nothing is produced. *)
Lemma missing_parent_stops_generator :
  let run := main no_fault ascii_lower ["project_template.py"; "a/b"; "Order"]
               empty_world in
  run.2 = Raise FileNotFoundError /\ files run.1 = ∅.
Proof. split; vm_compute; reflexivity. Qed.

(** C7. With project name shop and entity name Order, on a target that
    does not exist, the generator returns and has written
    templates/entity_template.py holding the class Order,
    templates/repository_interface_template.py holding the class
    OrderRepository, and pyproject.toml holding the line that names the
    project shop. *)
Theorem shop_order_scenario lower prog w :
  lower "Order" = "order" ->
  wf_fs (files w) ->
  files w !! ["shop"] = None ->
  exists w' entity repository pyproject,
    main no_fault lower [prog; "shop"; "Order"] w = (w', Ok tt) /\
    files w' !! ["entity_template.py"; "templates"; "shop"] = Some (File entity) /\
    contains entity "class Order:" = true /\
    files w' !! ["repository_interface_template.py"; "templates"; "shop"]
    = Some (File repository) /\
    contains repository "class OrderRepository(ABC):" = true /\
    files w' !! ["pyproject.toml"; "shop"] = Some (File pyproject) /\
    contains pyproject (dq "name = 'shop'") = true.
Proof.
  intros Hlower Hwf Hshop.
  destruct (main_fresh lower prog "shop" "Order" w Hwf Hshop eq_refl)
    as [out Hmain].
  change (Path "shop") with ["shop"] in Hmain.
  exists (World (plant (under ["shop"] (generated lower "shop" "Order")) (files w)) out),
         (render lower entity_template_py "Order" "shop"),
         (render lower repository_interface_template_py "Order" "shop"),
         (render lower pyproject_toml "Order" "shop").
  cbn [files].
  assert (forall template,
            render lower template "Order" "shop" = render ascii_lower template "Order" "shop")
    as Hrender.
  { intros template. unfold render, template_kwargs. by rewrite Hlower. }
  split_and!.
  - exact Hmain.
  - change ["entity_template.py"; "templates"; "shop"]
      with (["entity_template.py"; "templates"] ++ ["shop"]).
    by rewrite lookup_plant_under.
  - rewrite Hrender. vm_compute. reflexivity.
  - change ["repository_interface_template.py"; "templates"; "shop"]
      with (["repository_interface_template.py"; "templates"] ++ ["shop"]).
    by rewrite lookup_plant_under.
  - rewrite Hrender. vm_compute. reflexivity.
  - change ["pyproject.toml"; "shop"] with (["pyproject.toml"] ++ ["shop"]).
    by rewrite lookup_plant_under.
  - rewrite Hrender. vm_compute. reflexivity.
Qed.

Lemma shop_order_scenario_witness :
  exists w' entity repository pyproject,
    main no_fault ascii_lower ["project_template.py"; "shop"; "Order"] empty_world
    = (w', Ok tt) /\
    files w' !! ["entity_template.py"; "templates"; "shop"] = Some (File entity) /\
    contains entity "class Order:" = true /\
    files w' !! ["repository_interface_template.py"; "templates"; "shop"]
    = Some (File repository) /\
    contains repository "class OrderRepository(ABC):" = true /\
    files w' !! ["pyproject.toml"; "shop"] = Some (File pyproject) /\
    contains pyproject (dq "name = 'shop'") = true.
Proof.
  apply (shop_order_scenario ascii_lower "project_template.py" empty_world).
  - reflexivity.
  - apply wf_fs_empty.
  - reflexivity.
Defined.

(** * Further properties of the materializer, the renderer and [main] *)

(** ** The materializer under an existing root *)

Lemma os_mkdir_at_dir fault p w w' e :
  node_at (files w) (parent p) = Some Dir ->
  os_mkdir fault p w = (w', Raise e) -> e <> FileNotFoundError.
Proof.
  intros Hup. unfold os_mkdir. rewrite Hup.
  destruct (node_at (files w) p); [by intros [= _ <-]|].
  destruct (fault _ _); by intros [= _ <-].
Qed.

Lemma mkdir_parents_at_dir fault exist_ok p w :
  node_at (files w) (parent p) = Some Dir ->
  mkdir_parents fault exist_ok p w = mkdir_once fault exist_ok p w.
Proof.
  intros Hup. rewrite mkdir_parents_unfold. unfold mkdir_once.
  destruct (os_mkdir fault p w) as [w1 [a|e]] eqn:E; [done|].
  pose proof (os_mkdir_at_dir _ _ _ _ _ Hup E). by destruct e.
Qed.

Lemma create_file_at_dir fault p content w w' r :
  node_at (files w) (parent p) = Some Dir ->
  create_file fault p content w = (w', r) ->
  evolves nowhere (fun q c => q = p /\ c = content) (files w) (files w').
Proof.
  intros Hup. unfold create_file.
  change (Path_mkdir fault true true (parent p)) with
    (mkdir_parents fault true (parent p)).
  rewrite (bind_Ok _ _ _ _ _ (mkdir_parents_existing fault true _ _ Hup)).
  unfold bind, Path_exists.
  destruct (negb _ || strip_nonempty content).
  - apply touches_write_text.
  - intros [= <- _]. apply evolves_refl.
Qed.

Lemma items_at_dir fault p items : forall w w' r,
  Forall (fun item => forall q w w' r,
            node_at (files w) (parent q) = Some Dir ->
            create_entry fault q item.2 w = (w', r) ->
            evolves (fun x => (x, Dir) ∈ entry_nodes q item.2)
                    (fun x c => (x, File c) ∈ entry_nodes q item.2)
                    (files w) (files w')) items ->
  node_at (files w) p = Some Dir ->
  for_each (fun item => create_entry fault (item.1 :: p) item.2) items w = (w', r) ->
  evolves (fun x => (x, Dir) ∈ flat_map (fun item => entry_nodes (item.1 :: p) item.2) items)
          (fun x c => (x, File c) ∈ flat_map (fun item => entry_nodes (item.1 :: p) item.2) items)
          (files w) (files w').
Proof.
  induction items as [|item items IH]; intros w w' r Hall Hd.
  { intros [= <- _]. apply evolves_refl. }
  apply Forall_cons in Hall as [Hitem Hall].
  rewrite for_each_cons. unfold bind.
  destruct (create_entry fault (item.1 :: p) item.2 w) as [w1 r1] eqn:E1.
  pose proof (Hitem (item.1 :: p) _ _ _ Hd E1) as Hev1.
  assert (evolves
            (fun x => (x, Dir) ∈ flat_map (fun item => entry_nodes (item.1 :: p) item.2) (item :: items))
            (fun x c => (x, File c) ∈ flat_map (fun item => entry_nodes (item.1 :: p) item.2) (item :: items))
            (files w) (files w1)) as Hev1'.
  { eapply evolves_mono; [| |exact Hev1]; cbn [flat_map].
    - intros x Hx. apply elem_of_app. by left.
    - intros x c Hx. apply elem_of_app. by left. }
  destruct r1 as [[]|e]; [|by intros [= <- _]].
  intros Hrest. eapply evolves_trans; [exact Hev1'|].
  eapply evolves_mono; [| |eapply (IH w1 w' r Hall)]; cbn [flat_map].
  - intros x Hx. apply elem_of_app. by right.
  - intros x c Hx. apply elem_of_app. by right.
  - by eapply evolves_Dir.
  - exact Hrest.
Qed.

Lemma create_entry_at_dir fault e : forall p w w' r,
  node_at (files w) (parent p) = Some Dir ->
  create_entry fault p e w = (w', r) ->
  evolves (fun x => (x, Dir) ∈ entry_nodes p e)
          (fun x c => (x, File c) ∈ entry_nodes p e)
          (files w) (files w').
Proof.
  induction e as [content|items IH] using entry_nested_ind; intros p w w' r Hup.
  - intros Hrun. eapply evolves_mono; [| |by eapply create_file_at_dir].
    + by intros x [].
    + intros x c [-> ->]. simpl. by left.
  - change (create_entry fault p (EDir items)) with
      (Path_mkdir fault true true p ;;
       for_each (fun item => create_entry fault (item.1 :: p) item.2) items).
    change (Path_mkdir fault true true p) with (mkdir_parents fault true p).
    unfold bind. rewrite mkdir_parents_at_dir by done.
    destruct (mkdir_once fault true p w) as [w1 r1] eqn:Emk.
    assert (evolves (fun x => (x, Dir) ∈ entry_nodes p (EDir items))
                    (fun x c => (x, File c) ∈ entry_nodes p (EDir items))
                    (files w) (files w1)) as Hev1.
    { eapply evolves_mono; [| |by eapply touches_mkdir_once].
      - intros x ->. simpl. by left.
      - by intros x c []. }
    destruct r1 as [[]|e]; [|by intros [= <- _]].
    intros Hrest. eapply evolves_trans; [exact Hev1|].
    eapply evolves_mono; [| |eapply (items_at_dir fault p items w1 w' r)].
    + intros x Hx. simpl. by right.
    + intros x c Hx. simpl. by right.
    + exact IH.
    + apply mkdir_once_cases in Emk
        as [(_ & ? & ? & _)|[(-> & _ & _ & Hd)|(-> & _ & Hne & _)]];
        [done|done|]. by apply node_at_insert_eq.
    + exact Hrest.
Qed.

Lemma create_directory_structure_at_dir fault base s w w' r :
  node_at (files w) base = Some Dir ->
  create_directory_structure fault base s w = (w', r) ->
  evolves (fun x => (x, Dir) ∈ structure_nodes base s)
          (fun x c => (x, File c) ∈ structure_nodes base s)
          (files w) (files w').
Proof.
  intros Hd. apply items_at_dir; [|done].
  apply Forall_forall. intros item _ q u u' r'. apply create_entry_at_dir.
Qed.



(** ** Which exceptions can be raised *)

Lemma raises_Exception_ret {A} (a : A) : raises_Exception (ret a).
Proof. by intros w w' e. Qed.

Lemma raises_Exception_print line : raises_Exception (print line).
Proof. by intros w w' e. Qed.

Lemma raises_Exception_bind {A B} (m : M A) (k : A -> M B) :
  raises_Exception m -> (forall a, raises_Exception (k a)) ->
  raises_Exception (bind m k).
Proof.
  intros Hm Hk w w' e. unfold bind.
  destruct (m w) as [w1 [a|e1]] eqn:E.
  - apply Hk.
  - intros [= <- <-]. by eapply Hm.
Qed.

Lemma raises_Exception_for_each {A} (body : A -> M unit) l :
  (forall a, raises_Exception (body a)) -> raises_Exception (for_each body l).
Proof.
  intros Hbody. induction l as [|a l IH]; [apply raises_Exception_ret|].
  rewrite for_each_cons. apply raises_Exception_bind; [apply Hbody|by intros _].
Qed.

Lemma raises_Exception_Path_mkdir fault parents exist_ok p :
  raises_Exception (Path_mkdir fault parents exist_ok p).
Proof.
  intros w w' e. destruct parents; simpl.
  - intros (_ & _ & [[? _]|(? & [= <-] & He)])%mkdir_parents_spec; done.
  - intros [(_ & ? & [= <-] & He)|[(_ & ? & _)|(_ & ? & _)]]%mkdir_once_cases; done.
Qed.

Lemma raises_Exception_write_text fault p content :
  raises_Exception (write_text fault p content).
Proof.
  intros w w' e [(_ & ? & [= <-] & He)|(_ & ? & _)]%write_text_cases; done.
Qed.

Lemma raises_Exception_create_entry fault e : forall p,
  raises_Exception (create_entry fault p e).
Proof.
  induction e as [content|items IH] using entry_nested_ind; intros p.
  - change (create_entry fault p (EFile content)) with (create_file fault p content).
    unfold create_file.
    apply raises_Exception_bind; [apply raises_Exception_Path_mkdir|intros _].
    apply raises_Exception_bind; [by intros w w' e|intros present].
    destruct (negb present || strip_nonempty content);
      [apply raises_Exception_write_text|apply raises_Exception_ret].
  - change (create_entry fault p (EDir items)) with
      (Path_mkdir fault true true p ;;
       for_each (fun item => create_entry fault (item.1 :: p) item.2) items).
    apply raises_Exception_bind; [apply raises_Exception_Path_mkdir|intros _].
    induction IH as [|item items Hitem _ IHitems]; [apply raises_Exception_ret|].
    rewrite for_each_cons.
    apply raises_Exception_bind; [apply Hitem|by intros _].
Qed.

Lemma raises_Exception_generate fault lower root entity_name project_name :
  raises_Exception (generate fault lower root entity_name project_name).
Proof.
  unfold generate.
  apply raises_Exception_bind; [apply raises_Exception_print|intros _].
  apply raises_Exception_bind; [|intros _].
  { apply raises_Exception_for_each. intros item. apply raises_Exception_create_entry. }
  apply raises_Exception_bind; [apply raises_Exception_print|intros _].
  apply raises_Exception_bind; [|intros _].
  { intros w w' e. rewrite template_loop. revert w w' e.
    repeat (apply raises_Exception_bind;
            [first [apply raises_Exception_Path_mkdir|apply raises_Exception_write_text]
            |intros _]).
    apply raises_Exception_ret. }
  apply raises_Exception_bind; [apply raises_Exception_print|intros _].
  apply raises_Exception_bind; [|intros _].
  { intros w w' e. rewrite root_files_loop. revert w w' e.
    repeat (apply raises_Exception_bind; [apply raises_Exception_write_text|intros _]).
    apply raises_Exception_ret. }
  apply raises_Exception_bind; [apply raises_Exception_print|intros _].
  apply raises_Exception_print.
Qed.

Lemma exit_status_Exception {A} e :
  is_Exception e = true -> exit_status (@Raise A e) = 1%Z.
Proof. by destruct e. Qed.

(** ** The runs of [main] *)

Lemma touches_template_loop fault lower project_path entity_name project_name :
  touches (fun q => q = "templates" :: project_path)
          (fun q c => exists item, item ∈ TEMPLATES /\
                        q = item.1 :: "templates" :: project_path /\
                        c = render lower item.2 entity_name project_name)
          (generate_template_files fault lower project_path entity_name project_name).
Proof.
  intros w w' r. rewrite template_loop. revert w w' r.
  destruct TEMPLATES_has as (H1 & H2 & H3 & H4).
  apply touches_bind.
  { eapply touches_mono; [| |apply touches_mkdir_once]; [done|by intros q c []]. }
  intros _.
  repeat (apply touches_bind;
          [eapply touches_mono; [| |apply touches_write_text];
           [by intros q []|intros q c [-> ->]; eexists (_, _); eauto]
          |intros _]).
  apply touches_ret.
Qed.

Lemma touches_root_files fault lower project_path entity_name project_name :
  touches nowhere
          (fun q c => exists item, item ∈ TEMPLATES /\
                        q = item.1 :: project_path /\
                        c = render lower item.2 entity_name project_name)
          (for_each
             (fun file_name =>
                template <- lift (TEMPLATES_get file_name) ;;
                content <- lift (format template
                                   [ ("project_name", project_name);
                                     ("entity_name", entity_name);
                                     ("entity_name_lower", lower entity_name) ]) ;;
                write_text fault (file_name :: project_path) content)
             [ "pyproject.toml"; "README.md" ]).
Proof.
  intros w w' r. rewrite root_files_loop. revert w w' r.
  destruct TEMPLATES_has as (H1 & H2 & H3 & H4).
  repeat (apply touches_bind;
          [eapply touches_mono; [| |apply touches_write_text];
           [by intros q []|intros q c [-> ->]; eexists (_, _); eauto]
          |intros _]).
  apply touches_ret.
Qed.

Lemma below_root_1 (a : string) (root : path) :
  root `suffix_of` a :: root /\ a :: root <> root.
Proof.
  split; [by apply suffix_cons_r|]. intros H. by apply (path_longer a root).
Qed.

Lemma below_root_2 (a b : string) (root : path) :
  root `suffix_of` a :: b :: root /\ a :: b :: root <> root.
Proof.
  split; [by do 2 apply suffix_cons_r|].
  intros H. apply (f_equal length) in H. simpl in H. lia.
Qed.

(** With the root in place, [generate] works below the root only. *)
Lemma generate_below_root fault lower root entity_name project_name w w' r :
  node_at (files w) root = Some Dir ->
  generate fault lower root entity_name project_name w = (w', r) ->
  evolves (fun q => root `suffix_of` q /\ q <> root)
          (fun q _ => root `suffix_of` q /\ q <> root)
          (files w) (files w').
Proof.
  intros Hd. unfold generate. unfold bind at 1. unfold print at 1.
  unfold bind at 1.
  destruct (create_directory_structure fault root PROJECT_STRUCTURE _)
    as [w1 r1] eqn:E1.
  apply create_directory_structure_at_dir in E1; [|done]. cbn [files] in E1.
  assert (forall q n, (q, n) ∈ structure_nodes root PROJECT_STRUCTURE ->
            root `suffix_of` q /\ q <> root) as Hbelow.
  { intros q n (item & _ & Hq)%elem_of_flat_map.
    apply entry_nodes_below in Hq. split; [by eapply suffix_cons_l|].
    intros ->. apply suffix_length in Hq. simpl in Hq. lia. }
  assert (evolves (fun q => root `suffix_of` q /\ q <> root)
                  (fun q _ => root `suffix_of` q /\ q <> root)
                  (files w) (files w1)) as Hev1.
  { eapply evolves_mono; [| |exact E1]; [intros q|intros q c]; apply Hbelow. }
  destruct r1 as [[]|e]; [|by intros [= <- _]].
  intros Hrest. eapply evolves_trans; [exact Hev1|].
  revert Hrest. generalize w1 w' r. clear.
  apply touches_bind; [apply touches_print|intros _].
  apply touches_bind; [|intros _].
  { eapply touches_mono; [| |apply touches_template_loop].
    - intros q ->. apply below_root_1.
    - intros q c (item & _ & -> & _). apply below_root_2. }
  apply touches_bind; [apply touches_print|intros _].
  apply touches_bind; [|intros _].
  { eapply touches_mono; [| |apply touches_root_files].
    - by intros q [].
    - intros q c (item & _ & -> & _). apply below_root_1. }
  apply touches_bind; [apply touches_print|intros _]. apply touches_print.
Qed.

Lemma lookup_rmtree_outside (root q : path) (t : fs) :
  ~ root `suffix_of` q ->
  filter (fun kv : path * node => ~ root `suffix_of` kv.1) t !! q = t !! q.
Proof.
  intros Hq. destruct (t !! q) as [n|] eqn:Hn.
  - by apply map_lookup_filter_Some.
  - apply map_lookup_filter_None. by left.
Qed.

Lemma lookup_rmtree_below (root q : path) (t : fs) :
  root `suffix_of` q ->
  filter (fun kv : path * node => ~ root `suffix_of` kv.1) t !! q = None.
Proof.
  intros Hq. apply map_lookup_filter_None. right. intros n _ Hn. by apply Hn.
Qed.

(** Every run of [main] with two arguments is one of these: the target
    exists and nothing happens; the root cannot be made and the exception
    goes uncaught; [generate] returns; [generate] raises and the root is
    removed. *)
Lemma main_run fault lower prog project_name entity_name w w' r :
  let root := Path project_name in
  main fault lower [prog; project_name; entity_name] w = (w', r) ->
  (is_Some (node_at (files w) root) /\
   files w' = files w /\ r = Raise (SystemExit 1)) \/
  (node_at (files w) root = None /\
   files w' = files w /\ exists e, r = Raise e /\ is_Exception e = true) \/
  (node_at (files w) root = None /\
   node_at (files w) (parent root) = Some Dir /\
   exists w1,
     node_at (files w1) root = Some Dir /\
     evolves (fun q => root `suffix_of` q /\ q <> root)
             (fun q _ => root `suffix_of` q /\ q <> root)
             (<[root := Dir]> (files w)) (files w1) /\
     (r = Ok tt /\ files w' = files w1 \/
      r = Raise (SystemExit 1) /\
      files w' = filter (fun kv : path * node => ~ root `suffix_of` kv.1) (files w1))).
Proof.
  intros root Hrun. rewrite main_checked in Hrun. fold root in Hrun.
  unfold bind at 1 in Hrun. unfold Path_exists in Hrun.
  cbn [announced files] in Hrun.
  destruct (node_at (files w) root) as [n|] eqn:Habsent.
  { rewrite bool_decide_eq_true_2 in Hrun by eauto.
    unfold bind, print, sys_exit, raise in Hrun. cbn [files] in Hrun.
    injection Hrun as <- <-. left. eauto. }
  right. rewrite bool_decide_eq_false_2 in Hrun by apply is_Some_None.
  change (Path_mkdir fault false false root) with (mkdir_once fault false root) in Hrun.
  unfold bind in Hrun.
  destruct (mkdir_once fault false root _) as [w0 r0] eqn:Emk.
  apply mkdir_once_cases in Emk
    as [(-> & e & -> & He)|[(_ & _ & [=] & _)|(-> & -> & Hne & _ & Hup & _)]].
  { injection Hrun as <- <-. left. eauto. }
  right. cbn [announced files stdout] in Hup, Hrun. split; [done|]. split; [done|].
  unfold try_except in Hrun.
  destruct (generate fault lower root entity_name project_name _) as [w1 r1] eqn:Egen.
  assert (node_at (<[root := Dir]> (files w)) root = Some Dir) as Hd
    by (by apply node_at_insert_eq).
  pose proof (generate_below_root _ _ _ _ _
                (World (<[root := Dir]> (files w)) _) _ _ Hd Egen) as Hev.
  cbn [files] in Hev.
  assert (node_at (files w1) root = Some Dir) as Hd1 by (by eapply evolves_Dir).
  exists w1. split; [done|]. split; [done|].
  destruct r1 as [[]|e].
  { injection Hrun as <- <-. by left. }
  rewrite (raises_Exception_generate _ _ _ _ _ _ _ _ Egen) in Hrun.
  unfold cleanup, bind, print, Path_exists, shutil_rmtree, sys_exit, raise in Hrun.
  cbn [files stdout] in Hrun. rewrite Hd1 in Hrun.
  rewrite bool_decide_eq_true_2 in Hrun by eauto. cbn [files stdout] in Hrun.
  rewrite Hd1 in Hrun. injection Hrun as <- <-. by right.
Qed.

Lemma main_outside_root fault lower argv w w' r q :
  main fault lower argv w = (w', r) ->
  ~ Path (nth 1 argv EmptyString) `suffix_of` q ->
  files w' !! q = files w !! q.
Proof.
  destruct (decide (length argv = 3)) as [Hlen|Hlen].
  2: { rewrite main_usage by done. by intros [= <- _]. }
  destruct argv as [|prog [|project_name [|entity_name [|]]]]; try done.
  cbn [nth]. intros Hrun Hq.
  apply main_run in Hrun
    as [(_ & -> & _)|[(_ & -> & _)|(_ & _ & w1 & _ & Hev & Hend)]]; [done..|].
  assert (files w1 !! q = files w !! q) as Hsame.
  { rewrite (evolves_outside _ _ _ _ q Hev).
    - apply lookup_insert_ne. intros <-. by apply Hq.
    - by intros [? _].
    - by intros _ [? _]. }
  destruct Hend as [[_ ->]|[_ ->]]; [done|].
  by rewrite lookup_rmtree_outside.
Qed.



(** X3. A run of [main] on a target that does not exist either returns or
    leaves the file system exactly as it found it: when the root cannot be
    made, and when anything fails after it was made (the root is then
    removed with all that was put below it), no path differs from before
    the run. *)
Theorem main_all_or_nothing fault lower prog project_name entity_name w w' r :
  wf_fs (files w) ->
  node_at (files w) (Path project_name) = None ->
  main fault lower [prog; project_name; entity_name] w = (w', r) ->
  r <> Ok tt ->
  files w' = files w.
Proof.
  intros Hwf Habsent Hrun Hr.
  destruct (node_at_None _ _ Habsent) as [Hne Hroot].
  pose proof (nothing_below _ _ Hwf Hne Hroot) as Hfresh.
  pose proof (fun q => main_outside_root _ _ _ _ _ _ q Hrun) as Hout.
  cbn [nth] in Hout.
  apply main_run in Hrun
    as [(_ & -> & _)|[(_ & -> & _)|(_ & _ & w1 & _ & _ & [[-> _]|[_ Hw']])]];
    [done..|].
  apply map_eq. intros q.
  destruct (decide (Path project_name `suffix_of` q)) as [Hq|Hq].
  - by rewrite Hw', lookup_rmtree_below, Hfresh.
  - by apply Hout.
Qed.

Lemma main_all_or_nothing_witness :
  files (main readme_write_fails ascii_lower
           ["project_template.py"; "shop"; "Order"] empty_world).1
  = files empty_world.
Proof.
  apply (main_all_or_nothing readme_write_fails ascii_lower
           "project_template.py" "shop" "Order" empty_world _
           (main readme_write_fails ascii_lower
              ["project_template.py"; "shop"; "Order"] empty_world).2).
  - apply wf_fs_empty.
  - reflexivity.
  - apply surjective_pairing.
  - vm_compute. discriminate.
Defined.

(** X4. How a run of [main] can end, whatever the arguments, the file
    system and the failures of the environment: it returns; or it calls
    [sys.exit] with code 1, and with no other code; or an exception of
    the file system escapes uncaught, which happens only for
    [project_path.mkdir()] before the [try] block, on a target that did
    not exist, nothing having been written. *)
Theorem main_exits_only_with_1 fault lower argv w :
  let run := main fault lower argv w in
  run.2 = Ok tt \/
  run.2 = Raise (SystemExit 1) \/
  (exists e, run.2 = Raise e /\ is_Exception e = true /\
             length argv = 3 /\
             node_at (files w) (Path (nth 1 argv EmptyString)) = None /\
             files run.1 = files w).
Proof.
  intros run. subst run.
  destruct (decide (length argv = 3)) as [Hlen|Hlen].
  2: { rewrite main_usage by done. right. by left. }
  destruct argv as [|prog [|project_name [|entity_name [|]]]]; try done.
  destruct (main fault lower [prog; project_name; entity_name] w) as [w' r] eqn:Hrun.
  apply main_run in Hrun
    as [(_ & _ & ->)|[(Habsent & Hfiles & e & -> & He)
                     |(_ & _ & w1 & _ & _ & [[-> _]|[-> _]])]];
    cbn [fst snd nth].
  - right. by left.
  - right. right. exists e. by split_and!.
  - by left.
  - right. by left.
Qed.

Lemma main_existing fault lower prog project_name entity_name w :
  is_Some (node_at (files w) (Path project_name)) ->
  exists w',
    main fault lower [prog; project_name; entity_name] w = (w', Raise (SystemExit 1)) /\
    files w' = files w.
Proof.
  intros Hex.
  destruct (main fault lower [prog; project_name; entity_name] w) as [w' r] eqn:Hrun.
  apply main_run in Hrun
    as [(_ & Hw' & ->)|[(Hn & _)|(Hn & _)]].
  - eauto.
  - rewrite Hn in Hex. by destruct Hex.
  - rewrite Hn in Hex. by destruct Hex.
Qed.

(** X5. [main] does not run twice on one target: after a run that
    returned, any further run with the same arguments, in whatever
    environment, exits with status 1 and leaves the generated project
    untouched. *)
Theorem main_refuses_second_run fault lower argv w w' fault' lower' :
  main fault lower argv w = (w', Ok tt) ->
  exists w'',
    main fault' lower' argv w' = (w'', Raise (SystemExit 1)) /\
    files w'' = files w'.
Proof.
  destruct (decide (length argv = 3)) as [Hlen|Hlen].
  2: { by rewrite main_usage by done. }
  destruct argv as [|prog [|project_name [|entity_name [|]]]]; try done.
  intros Hrun. apply main_existing.
  apply main_run in Hrun
    as [(_ & _ & [=])|[(_ & _ & e & [=] & _)|(_ & _ & w1 & Hd & _ & [[_ ->]|[[=] _]])]].
  rewrite Hd. eauto.
Qed.

Lemma main_refuses_second_run_witness :
  let w' := (main no_fault ascii_lower
               ["project_template.py"; "shop"; "Order"] empty_world).1 in
  exists w'',
    main no_fault ascii_lower ["project_template.py"; "shop"; "Order"] w'
    = (w'', Raise (SystemExit 1)) /\
    files w'' = files w'.
Proof.
  intros w'.
  apply (main_refuses_second_run no_fault ascii_lower
           ["project_template.py"; "shop"; "Order"] empty_world).
  apply (run_eta (main no_fault ascii_lower
                    ["project_template.py"; "shop"; "Order"] empty_world) (Ok tt)).
  vm_compute. reflexivity.
Defined.



(** ** The template renderer on its own *)

Lemma mkdir_once_ensures p w :
  p <> [] ->
  node_at (files w) (parent p) = Some Dir ->
  (files w !! p = None \/ files w !! p = Some Dir) ->
  mkdir_once no_fault true p w
  = (World (<[p := Dir]> (files w)) (stdout w), Ok tt).
Proof.
  intros Hne Hup Hp. unfold mkdir_once, os_mkdir, dir_at.
  rewrite (node_at_nonempty _ _ Hne). destruct Hp as [Hp|Hp]; rewrite Hp.
  - by rewrite Hup.
  - rewrite (node_at_nonempty _ _ Hne), Hp.
    rewrite bool_decide_eq_true_2 by done. simpl.
    rewrite insert_id by done. by destruct w.
Qed.

Lemma write_text_over p content w :
  p <> [] ->
  node_at (files w) (parent p) = Some Dir ->
  files w !! p <> Some Dir ->
  write_text no_fault p content w
  = (World (<[p := File content]> (files w)) (stdout w), Ok tt).
Proof.
  intros Hne Hup Hp. unfold write_text. rewrite (node_at_nonempty _ _ Hne).
  destruct (files w !! p) as [[|old]|]; [done|done|]. by rewrite Hup.
Qed.

(** X7. The template renderer overwrites: run in a project directory that
    exists, with templates/ absent or a directory and no directory in the
    place of a template file, it returns (no operation failing) and each of
    the four files under templates/ holds the rendered template, whatever
    it held before, nothing else being changed. *)
Theorem template_renderer_overwrites lower project_path entity_name project_name w :
  let templates_dir := "templates" :: project_path in
  node_at (files w) project_path = Some Dir ->
  (files w !! templates_dir = None \/ files w !! templates_dir = Some Dir) ->
  (forall item, item ∈ TEMPLATES -> files w !! (item.1 :: templates_dir) <> Some Dir) ->
  generate_template_files no_fault lower project_path entity_name project_name w
  = (World (plant (under project_path (template_nodes lower entity_name project_name))
              (files w)) (stdout w), Ok tt)
  /\ (forall item, item ∈ TEMPLATES ->
        plant (under project_path (template_nodes lower entity_name project_name))
          (files w) !! (item.1 :: templates_dir)
        = Some (File (render lower item.2 entity_name project_name)))
  /\ (forall q, q <> templates_dir ->
                (forall item, item ∈ TEMPLATES -> q <> item.1 :: templates_dir) ->
        plant (under project_path (template_nodes lower entity_name project_name))
          (files w) !! q
        = files w !! q).
Proof.
  intros templates_dir Hd Htd Hfiles.
  destruct TEMPLATES_has as (H1 & H2 & H3 & H4).
  pose proof (Hfiles _ H1) as F1. pose proof (Hfiles _ H2) as F2.
  pose proof (Hfiles _ H3) as F3. pose proof (Hfiles _ H4) as F4.
  cbn [fst] in F1, F2, F3, F4.
  assert (forall a : string, a :: templates_dir <> templates_dir) as Hlen.
  { intros a H. by apply (path_longer a templates_dir). }
  split_and!.
  - rewrite template_loop. fold templates_dir.
    change (Path_mkdir no_fault false true templates_dir)
      with (mkdir_once no_fault true templates_dir).
    erewrite bind_Ok; last by apply mkdir_once_ensures.
    erewrite bind_Ok; last first.
    { apply write_text_over; cbn [files parent tail]; [done| |].
      - by apply node_at_insert_eq.
      - by rewrite lookup_insert_ne. }
    erewrite bind_Ok; last first.
    { apply write_text_over; cbn [files parent tail]; [done| |].
      - rewrite node_at_insert_ne by done. by apply node_at_insert_eq.
      - rewrite !lookup_insert_ne; [done|done|by intros [=]]. }
    erewrite bind_Ok; last first.
    { apply write_text_over; cbn [files parent tail]; [done| |].
      - rewrite !node_at_insert_ne by done. by apply node_at_insert_eq.
      - rewrite !lookup_insert_ne; [done|done|by intros [=]|by intros [=]]. }
    erewrite bind_Ok; last first.
    { apply write_text_over; cbn [files parent tail]; [done| |].
      - rewrite !node_at_insert_ne by done. by apply node_at_insert_eq.
      - rewrite !lookup_insert_ne;
          [done|done|by intros [=]|by intros [=]|by intros [=]]. }
    reflexivity.
  - intros item Hitem.
    change (item.1 :: templates_dir) with ([item.1; "templates"] ++ project_path).
    rewrite lookup_plant_under. unfold TEMPLATES in Hitem.
    repeat (apply elem_of_cons in Hitem as [->|Hitem]; [reflexivity|]).
    by apply elem_of_nil in Hitem.
  - intros q Hq Hfile. apply plant_outside. intros n Hin.
    apply list_elem_of_fmap in Hin as ([rel n'] & [= -> ->] & Hin).
    unfold template_nodes in Hin. cbn [fst] in *.
    apply elem_of_cons in Hin as [[= -> _]|Hin]; [by apply Hq|].
    apply list_elem_of_fmap in Hin as (item & [= -> _] & Hitem).
    by apply (Hfile item).
Qed.

Lemma template_renderer_overwrites_witness :
  let pp := ["shop"] in
  let w := World (<[ ["README.md"; "templates"; "shop"] := File "old" ]>
                    (<[ ["templates"; "shop"] := Dir ]> {[ ["shop"] := Dir ]})) [] in
  plant (under pp (template_nodes ascii_lower "Order" "shop")) (files w)
    !! ["README.md"; "templates"; "shop"]
  = Some (File (render ascii_lower README_md "Order" "shop")).
Proof.
  intros pp w.
  destruct (template_renderer_overwrites ascii_lower pp "Order" "shop" w)
    as (_ & H & _).
  - reflexivity.
  - right. reflexivity.
  - intros item Hitem. unfold TEMPLATES in Hitem.
    repeat (apply elem_of_cons in Hitem as [->|Hitem]; [by vm_compute|]).
    by apply elem_of_nil in Hitem.
  - apply (H ("README.md", README_md)). unfold TEMPLATES.
    rewrite !elem_of_cons. tauto.
Defined.





(** ** The materializer on any structure *)

Lemma entry_nodes_NoDup e : forall p,
  wf_entry e = true -> NoDup (entry_nodes p e).*1.
Proof.
  induction e as [content|items IH] using entry_nested_ind; intros p Hwf.
  { simpl. apply NoDup_singleton. }
  apply wf_entry_dir in Hwf as [Hnd Hwf]. cbn [entry_nodes fmap list_fmap fst].
  apply NoDup_cons. split.
  - intros ([q n] & Hq & (item & _ & Hin)%elem_of_flat_map)%list_elem_of_fmap.
    cbn [fst] in Hq. subst q. apply entry_nodes_below in Hin as [k Hk].
    apply (f_equal length) in Hk. rewrite length_app in Hk. simpl in Hk. lia.
  - induction items as [|item items IHitems]; [constructor|].
    apply Forall_cons in IH as [IHitem IH].
    apply Forall_cons in Hwf as [Hwfitem Hwf].
    cbn [fmap list_fmap] in Hnd. apply NoDup_cons in Hnd as [Hfirst Hnd].
    cbn [flat_map]. rewrite fmap_app. apply NoDup_app. split_and!.
    + by apply IHitem.
    + intros x ([q n] & Hq & Hin)%list_elem_of_fmap
        ([q' n'] & Hq' & (other & Hother & Hin')%elem_of_flat_map)%list_elem_of_fmap.
      cbn [fst] in Hq, Hq'. subst q q'.
      apply entry_nodes_below in Hin, Hin'.
      apply Hfirst. rewrite (suffix_same_parent _ _ _ _ Hin Hin').
      apply list_elem_of_fmap. by exists other.
    + by apply IHitems.
Qed.

Lemma structure_paths_NoDup base s :
  wf_structure s = true -> NoDup (structure_paths base s).
Proof.
  intros Hwf. apply (entry_nodes_NoDup (EDir s) base) in Hwf.
  cbn [entry_nodes fmap list_fmap] in Hwf. by apply NoDup_cons in Hwf as [_ ?].
Qed.

Lemma planted_None q (l : list (path * node)) : q ∉ l.*1 -> planted q l = None.
Proof.
  induction l as [|[q0 n0] l IH]; [done|]. cbn [fmap list_fmap fst planted].
  intros [Hne Hq]%not_elem_of_cons. rewrite IH by done.
  by rewrite bool_decide_eq_false_2.
Qed.

Lemma planted_NoDup q n (l : list (path * node)) :
  NoDup l.*1 -> (q, n) ∈ l -> planted q l = Some n.
Proof.
  induction l as [|[q0 n0] l IH]; [by intros _ ?%elem_of_nil|].
  cbn [fmap list_fmap fst planted].
  intros [Hfirst Hnd]%NoDup_cons [[= -> ->]|Hin]%elem_of_cons.
  - rewrite planted_None by done. by rewrite bool_decide_eq_true_2.
  - by rewrite IH.
Qed.


Lemma structure_node_below base s q n :
  (q, n) ∈ structure_nodes base s ->
  exists item, item ∈ s /\ item.1 :: base `suffix_of` q.
Proof.
  intros (item & Hitem & Hin)%elem_of_flat_map. exists item. split; [done|].
  by eapply entry_nodes_below.
Qed.

Lemma structure_node_nonempty base s q n :
  (q, n) ∈ structure_nodes base s -> q <> [].
Proof.
  intros (item & _ & [k ->])%structure_node_below. by destruct k.
Qed.

(** What [settled] says node by node. *)
Lemma settled_nodes e : forall p t q n,
  settled p e t ->
  (q, n) ∈ entry_nodes p e ->
  match n with
  | Dir => node_at t q = Some Dir
  | File c => if strip_nonempty c then node_at t q = Some (File c)
              else is_Some (node_at t q)
  end.
Proof.
  induction e as [content|items IH] using entry_nested_ind; intros p t q n.
  - intros [_ H] [= -> ->]%list_elem_of_singleton. exact H.
  - intros [Hd Hitems]%settled_dir_unfold. cbn [entry_nodes].
    intros [[= -> ->]|(item & Hitem & Hin)%elem_of_flat_map]%elem_of_cons; [done|].
    rewrite Forall_forall in IH, Hitems.
    by eapply (IH item Hitem), Hin; apply Hitems.
Qed.

Lemma raises_Exception_create_directory_structure fault base s :
  raises_Exception (create_directory_structure fault base s).
Proof.
  apply raises_Exception_for_each. intros item. apply raises_Exception_create_entry.
Qed.




(** X11. The materializer never turns a file into a directory nor a
    directory into a file: when a regular file lies where the structure
    has a mapping, or a directory where it has a string that is not blank,
    no run returns; it ends in an exception that [except Exception]
    catches. *)
Theorem materializer_type_conflict fault base s w w' r q content :
  wf_structure s = true ->
  ((q, Dir) ∈ structure_nodes base s /\ files w !! q = Some (File content)) \/
  ((q, File content) ∈ structure_nodes base s /\
   strip_nonempty content = true /\ files w !! q = Some Dir) ->
  create_directory_structure fault base s w = (w', r) ->
  exists e, r = Raise e /\ is_Exception e = true.
Proof.
  intros Hwf Hconflict Hrun. destruct r as [[]|e].
  - exfalso.
    pose proof (touches_create_directory_structure fault base s _ _ _ Hrun q) as Hev.
    pose proof (create_directory_structure_settles _ _ _ _ _ Hwf Hrun) as Hall.
    unfold all_settled in Hall. rewrite Forall_forall in Hall.
    destruct Hconflict as [[Hin Hq]|(Hin & Hstrip & Hq)].
    + pose proof Hin as Hne%structure_node_nonempty.
      apply elem_of_flat_map in Hin as (item & Hitem & Hin).
      pose proof (settled_nodes _ _ _ _ _ (Hall item Hitem) Hin) as Hd.
      cbn beta iota in Hd. rewrite (node_at_nonempty _ _ Hne) in Hd.
      destruct Hev as [E|[(_ & E & _)|(c & _ & _ & E)]]; congruence.
    + pose proof Hin as Hne%structure_node_nonempty.
      apply elem_of_flat_map in Hin as (item & Hitem & Hin).
      pose proof (settled_nodes _ _ _ _ _ (Hall item Hitem) Hin) as Hf.
      cbn beta iota in Hf. rewrite Hstrip, (node_at_nonempty _ _ Hne) in Hf.
      destruct Hev as [E|[(_ & E & _)|(c & _ & E & _)]]; congruence.
  - exists e. split; [done|].
    by eapply raises_Exception_create_directory_structure.
Qed.

Lemma materializer_type_conflict_witness :
  let s := [("src", EDir [("a.py", EFile "x")])] in
  let w := World {[ ["src"] := File "not a directory" ]} [] in
  exists e, (create_directory_structure no_fault [] s w).2 = Raise e /\
            is_Exception e = true.
Proof.
  intros s w.
  apply (materializer_type_conflict no_fault [] s w
           (create_directory_structure no_fault [] s w).1 _
           ["src"] "not a directory").
  - reflexivity.
  - left. split; [compute_done|reflexivity].
  - apply surjective_pairing.
Defined.

(** X12. On a location where none of its paths is taken, the materializer
    builds the tree of any structure (with each key once per mapping, keys
    being single plain components): with
    no operation failing it returns, every mapping of the structure is a
    directory, every string item is a file with exactly that string, be it
    blank or not, and the paths of the file system are those of before and
    those of the structure. *)
Theorem materializer_builds_tree base s w :
  wf_structure s = true ->
  plain_structure s = true ->
  node_at (files w) base = Some Dir ->
  (forall item x, item ∈ s -> item.1 :: base `suffix_of` x -> files w !! x = None) ->
  exists w',
    create_directory_structure no_fault base s w = (w', Ok tt) /\
    (forall q n, (q, n) ∈ structure_nodes base s -> files w' !! q = Some n) /\
    (forall q, q ∉ structure_paths base s -> files w' !! q = files w !! q) /\
    dom (files w') = dom (files w) ∪ list_to_set (structure_paths base s).
Proof.
  intros Hwf _ Hd Hfresh. eexists. split_and!.
  - by apply create_directory_structure_fresh.
  - intros q n Hin. cbn [files]. rewrite lookup_plant.
    by rewrite (planted_NoDup _ _ _ (structure_paths_NoDup base s Hwf) Hin).
  - intros q Hq. cbn [files]. apply plant_outside. intros n Hin.
    apply Hq, list_elem_of_fmap. by exists (q, n).
  - cbn [files]. apply dom_plant.
Qed.

Lemma materializer_builds_tree_witness :
  let s := [("src", EDir [("a.py", EFile ""); ("b.py", EFile "x")])] in
  exists w',
    create_directory_structure no_fault ["shop"] s (World {[ ["shop"] := Dir ]} [])
    = (w', Ok tt) /\
    files w' !! ["a.py"; "src"; "shop"] = Some (File "").
Proof.
  intros s.
  destruct (materializer_builds_tree ["shop"] s (World {[ ["shop"] := Dir ]} []))
    as (w' & Hrun & Hnodes & _).
  - reflexivity.
  - reflexivity.
  - reflexivity.
  - intros item x _ [k ->]. apply lookup_singleton_ne.
    intros H. apply (f_equal length) in H. rewrite length_app in H. simpl in H. lia.
  - exists w'. split; [exact Hrun|]. apply Hnodes. compute_done.
Defined.

(** *** Running the materializer again after a failure *)






(** ** The names a template depends on *)

Lemma substitute_fields_ext names kw1 kw2 segs :
  forallb (field_known names) segs = true ->
  (forall name, name ∈ names -> kw_lookup name kw1 = kw_lookup name kw2) ->
  substitute kw1 segs = substitute kw2 segs.
Proof.
  intros Hknown Hkw. induction segs as [|[c|name] segs IH]; simpl in *; [done| |].
  - by rewrite IH.
  - apply andb_prop in Hknown as [Hname Hknown].
    apply bool_decide_eq_true_1 in Hname. rewrite (Hkw name Hname).
    destruct (kw_lookup name kw2); [|done]. by rewrite IH.
Qed.

Lemma render_fields_ext names lower template e1 p1 e2 p2 :
  (exists segs, segments template = Ok segs /\
                forallb (field_known names) segs = true) ->
  (forall name, name ∈ names ->
     kw_lookup name (template_kwargs lower e1 p1)
     = kw_lookup name (template_kwargs lower e2 p2)) ->
  render lower template e1 p1 = render lower template e2 p2.
Proof.
  intros (segs & Hsegs & Hknown) Hkw. unfold render.
  rewrite !(format_segments _ _ _ Hsegs).
  by rewrite (substitute_fields_ext names _ _ _ Hknown Hkw).
Qed.

(** X14. Which names a rendered file depends on: the entity template and
    the repository interface template render to the same text whatever
    the project name, and pyproject.toml and README.md (under templates/
    and at the project root alike) render to the same text whatever the
    entity name. *)
Theorem rendering_depends_on_its_names lower :
  (forall entity_name p1 p2,
     render lower entity_template_py entity_name p1
     = render lower entity_template_py entity_name p2 /\
     render lower repository_interface_template_py entity_name p1
     = render lower repository_interface_template_py entity_name p2) /\
  (forall project_name e1 e2,
     render lower pyproject_toml e1 project_name
     = render lower pyproject_toml e2 project_name /\
     render lower README_md e1 project_name
     = render lower README_md e2 project_name /\
     format pyproject_toml (root_kwargs lower e1 project_name)
     = format pyproject_toml (root_kwargs lower e2 project_name) /\
     format README_md (root_kwargs lower e1 project_name)
     = format README_md (root_kwargs lower e2 project_name)).
Proof.
  assert (forall project_name e1 e2,
            render lower pyproject_toml e1 project_name
            = render lower pyproject_toml e2 project_name) as Hpy.
  { intros project_name e1 e2.
    apply (render_fields_ext ["project_name"]).
    - eexists. split; vm_compute; reflexivity.
    - by intros name ->%list_elem_of_singleton. }
  assert (forall project_name e1 e2,
            render lower README_md e1 project_name
            = render lower README_md e2 project_name) as Hreadme.
  { intros project_name e1 e2.
    apply (render_fields_ext ["project_name"]).
    - eexists. split; vm_compute; reflexivity.
    - by intros name ->%list_elem_of_singleton. }
  destruct TEMPLATES_has as (_ & _ & H3 & H4).
  split.
  - intros entity_name p1 p2. split.
    + apply (render_fields_ext ["entity_name"; "entity_name_lower"]).
      * eexists. split; vm_compute; reflexivity.
      * intros name. rewrite !elem_of_cons, elem_of_nil. by intros [->|[->|[]]].
    + apply (render_fields_ext ["entity_name"; "entity_name_lower"]).
      * eexists. split; vm_compute; reflexivity.
      * intros name. rewrite !elem_of_cons, elem_of_nil. by intros [->|[->|[]]].
  - intros project_name e1 e2. split_and!; [apply Hpy|apply Hreadme| |].
    + rewrite (format_TEMPLATES lower e1 project_name _ _ _ ltac:(right; left) H3).
      rewrite (format_TEMPLATES lower e2 project_name _ _ _ ltac:(right; left) H3).
      by rewrite (Hpy project_name e1 e2).
    + rewrite (format_TEMPLATES lower e1 project_name _ _ _ ltac:(right; left) H4).
      rewrite (format_TEMPLATES lower e2 project_name _ _ _ ltac:(right; left) H4).
      by rewrite (Hreadme project_name e1 e2).
Qed.

(** ** A run that returns has met no failure *)

Lemma succeeds_as_refl {A} (m : M A) : succeeds_as m m.
Proof. by intros w w' a. Qed.

Lemma succeeds_as_bind {A B} (m m0 : M A) (k k0 : A -> M B) :
  succeeds_as m m0 -> (forall a, succeeds_as (k a) (k0 a)) ->
  succeeds_as (bind m k) (bind m0 k0).
Proof.
  intros Hm Hk w w' b (w1 & a & H1 & H2)%bind_Ok_inv.
  rewrite (bind_Ok _ _ _ _ _ (Hm _ _ _ H1)). by apply Hk.
Qed.

Lemma succeeds_as_for_each {A} (body body0 : A -> M unit) l :
  (forall a, succeeds_as (body a) (body0 a)) ->
  succeeds_as (for_each body l) (for_each body0 l).
Proof.
  intros Hbody. induction l as [|a l IH]; [apply succeeds_as_refl|].
  rewrite !for_each_cons. apply succeeds_as_bind; [apply Hbody|by intros _].
Qed.

Lemma succeeds_as_try_except {A} (body body0 : M A) handler :
  succeeds_as body body0 ->
  (forall e w w' a, handler e w <> (w', Ok a)) ->
  succeeds_as (try_except body handler) (try_except body0 handler).
Proof.
  intros Hbody Hhandler w w' a. unfold try_except.
  destruct (body w) as [w1 [a1|e]] eqn:E.
  - intros [= <- <-]. by rewrite (Hbody _ _ _ E).
  - destruct (is_Exception e); [|done]. intros H. by apply Hhandler in H.
Qed.

Section FaultsOnlyFail.

Variable fault : fsop -> fs -> bool.
Variable lower : string -> string.

Lemma succeeds_as_mkdir_once exist_ok p :
  succeeds_as (mkdir_once fault exist_ok p) (mkdir_once no_fault exist_ok p).
Proof.
  intros w w' a. unfold mkdir_once, os_mkdir, dir_at, no_fault.
  destruct (node_at (files w) p) as [n|] eqn:E; [done|].
  destruct (node_at (files w) (parent p)) as [[|c]|]; [|done..].
  destruct (fault _ _); [|done].
  rewrite E, bool_decide_eq_false_2 by done. by rewrite orb_true_r.
Qed.

Lemma succeeds_as_mkdir_parents p : forall exist_ok,
  succeeds_as (mkdir_parents fault exist_ok p) (mkdir_parents no_fault exist_ok p).
Proof.
  induction p as [|a up IH]; intros exist_ok w w' r;
    rewrite !mkdir_parents_unfold; unfold os_mkdir, dir_at, no_fault.
  - destruct (node_at (files w) []) as [n|] eqn:E; [done|].
    destruct (node_at (files w) (parent [])) as [[|c]|]; [|done..].
    destruct (fault _ _); [|done].
    rewrite E, bool_decide_eq_false_2 by done. by rewrite orb_true_r.
  - destruct (node_at (files w) (a :: up)) as [n|] eqn:E; [done|].
    destruct (node_at (files w) (parent (a :: up))) as [[|c]|]; [|done|].
    + destruct (fault _ _); [|done].
      rewrite E, bool_decide_eq_false_2 by done. by rewrite orb_true_r.
    + apply succeeds_as_bind; [apply IH|intros _; apply succeeds_as_mkdir_once].
Qed.

Lemma succeeds_as_Path_mkdir parents exist_ok p :
  succeeds_as (Path_mkdir fault parents exist_ok p)
              (Path_mkdir no_fault parents exist_ok p).
Proof.
  destruct parents; [apply succeeds_as_mkdir_parents|apply succeeds_as_mkdir_once].
Qed.

Lemma succeeds_as_write_text p content :
  succeeds_as (write_text fault p content) (write_text no_fault p content).
Proof.
  intros w w' a. unfold write_text, no_fault.
  destruct (node_at (files w) p) as [[|c]|].
  - done.
  - by destruct (fault _ _).
  - destruct (node_at (files w) (parent p)) as [[|c]|]; [|done..].
    by destruct (fault _ _).
Qed.

Lemma succeeds_as_create_entry e : forall p,
  succeeds_as (create_entry fault p e) (create_entry no_fault p e).
Proof.
  induction e as [content|items IH] using entry_nested_ind; intros p.
  - change (succeeds_as (create_file fault p content) (create_file no_fault p content)).
    unfold create_file.
    apply succeeds_as_bind; [apply succeeds_as_Path_mkdir|intros _].
    apply succeeds_as_bind; [apply succeeds_as_refl|intros present].
    destruct (negb present || strip_nonempty content);
      [apply succeeds_as_write_text|apply succeeds_as_refl].
  - change (succeeds_as
              (Path_mkdir fault true true p ;;
               for_each (fun item => create_entry fault (item.1 :: p) item.2) items)
              (Path_mkdir no_fault true true p ;;
               for_each (fun item => create_entry no_fault (item.1 :: p) item.2) items)).
    apply succeeds_as_bind; [apply succeeds_as_Path_mkdir|intros _].
    clear -IH. induction items as [|item items IHitems]; [apply succeeds_as_refl|].
    apply Forall_cons in IH as [IHitem IH].
    rewrite !for_each_cons.
    apply succeeds_as_bind; [apply IHitem|intros _; by apply IHitems].
Qed.

Lemma succeeds_as_generate root entity_name project_name :
  succeeds_as (generate fault lower root entity_name project_name)
              (generate no_fault lower root entity_name project_name).
Proof.
  unfold generate.
  apply succeeds_as_bind; [apply succeeds_as_refl|intros _].
  apply succeeds_as_bind.
  { apply succeeds_as_for_each. intros item. apply succeeds_as_create_entry. }
  intros _. apply succeeds_as_bind; [apply succeeds_as_refl|intros _].
  apply succeeds_as_bind.
  { unfold generate_template_files.
    apply succeeds_as_bind; [apply succeeds_as_Path_mkdir|intros _].
    apply succeeds_as_for_each. intros [tname template].
    apply succeeds_as_bind; [apply succeeds_as_refl|intros content].
    apply succeeds_as_write_text. }
  intros _. apply succeeds_as_bind; [apply succeeds_as_refl|intros _].
  apply succeeds_as_bind; [|intros _; apply succeeds_as_refl].
  apply succeeds_as_for_each. intros file_name.
  apply succeeds_as_bind; [apply succeeds_as_refl|intros template].
  apply succeeds_as_bind; [apply succeeds_as_refl|intros content].
  apply succeeds_as_write_text.
Qed.

Lemma succeeds_as_main argv :
  succeeds_as (main fault lower argv) (main no_fault lower argv).
Proof.
  unfold main. destruct (negb _); [apply succeeds_as_refl|].
  apply succeeds_as_bind; [apply succeeds_as_refl|intros _].
  apply succeeds_as_bind; [apply succeeds_as_refl|intros _].
  apply succeeds_as_bind; [apply succeeds_as_refl|intros present].
  destruct present; [apply succeeds_as_refl|].
  apply succeeds_as_bind; [apply succeeds_as_Path_mkdir|intros _].
  apply succeeds_as_try_except; [apply succeeds_as_generate|].
  intros e w w' a H. by apply cleanup_exits in H as [e' [=]].
Qed.

End FaultsOnlyFail.

Lemma run_files {A} (x : world * result A) w' r t out r' :
  x = (w', r) -> x = (World t out, r') -> files w' = t.
Proof. intros -> [= -> _]. reflexivity. Qed.

(** X15. A run of [main] that returns (exit status 0) has generated the
    whole project, whatever failures the environment may produce: the
    target did not exist, and the file system is the one of before with
    the complete project tree added, every file with its content, exactly
    as a run that meets no failure leaves it. *)
Theorem main_success_is_complete fault lower argv w w' :
  let project_name := nth 1 argv EmptyString in
  let entity_name := nth 2 argv EmptyString in
  wf_fs (files w) ->
  main fault lower argv w = (w', Ok tt) ->
  main no_fault lower argv w = (w', Ok tt) /\
  node_at (files w) (Path project_name) = None /\
  files w' = plant (under (Path project_name)
                      (generated lower project_name entity_name)) (files w).
Proof.
  intros project_name entity_name Hwf Hrun.
  pose proof (succeeds_as_main fault lower argv _ _ _ Hrun) as Hrun0.
  split; [done|].
  destruct (decide (length argv = 3)) as [Hlen|Hlen].
  2: { by rewrite main_usage in Hrun by done. }
  destruct argv as [|prog [|pn [|en [|]]]]; try done.
  cbn [nth] in project_name, entity_name. subst project_name entity_name.
  apply main_run in Hrun
    as [(_ & _ & [=])|[(_ & _ & e & [=] & _)|(Habsent & Hup & _)]].
  split; [done|].
  destruct (main_fresh lower prog pn en w Hwf Habsent Hup) as [out Hfresh].
  exact (run_files _ _ _ _ _ _ Hrun0 Hfresh).
Qed.

Lemma main_success_is_complete_witness :
  let argv := ["project_template.py"; "shop"; "Order"] in
  let w' := (main no_fault ascii_lower argv empty_world).1 in
  main no_fault ascii_lower argv empty_world = (w', Ok tt) /\
  node_at (files empty_world) (Path "shop") = None /\
  files w' = plant (under (Path "shop") (generated ascii_lower "shop" "Order"))
               (files empty_world).
Proof.
  intros argv w'.
  apply (main_success_is_complete no_fault ascii_lower argv empty_world w').
  - apply wf_fs_empty.
  - apply (run_eta (main no_fault ascii_lower argv empty_world) (Ok tt)).
    vm_compute. reflexivity.
Defined.

(** ** What a run prints *)

Lemma silent_ret {A} (a : A) : silent (ret a).
Proof. by intros w w' r [= <- _]. Qed.

Lemma silent_lift {A} (x : result A) : silent (lift x).
Proof. by intros w w' r [= <- _]. Qed.

Lemma silent_bind {A B} (m : M A) (k : A -> M B) :
  silent m -> (forall a, silent (k a)) -> silent (bind m k).
Proof.
  intros Hm Hk w w' r. unfold bind.
  destruct (m w) as [w1 [a|e]] eqn:E.
  - intros H. rewrite (Hk _ _ _ _ H). by eapply Hm.
  - intros [= <- _]. by eapply Hm.
Qed.

Lemma silent_for_each {A} (body : A -> M unit) l :
  (forall a, silent (body a)) -> silent (for_each body l).
Proof.
  intros Hbody. induction l as [|a l IH]; [apply silent_ret|].
  rewrite for_each_cons. apply silent_bind; [apply Hbody|by intros _].
Qed.

Section Output.

Variable fault : fsop -> fs -> bool.
Variable lower : string -> string.

Lemma silent_Path_exists p : silent (Path_exists p).
Proof. by intros w w' r [= <- _]. Qed.

Lemma silent_os_mkdir p : silent (os_mkdir fault p).
Proof.
  intros w w' r. unfold os_mkdir.
  destruct (node_at (files w) p); [by intros [= <- _]|].
  destruct (node_at (files w) (parent p)) as [[|c]|]; [|by intros [= <- _]..].
  destruct (fault _ _); by intros [= <- _].
Qed.

Lemma silent_mkdir_once exist_ok p : silent (mkdir_once fault exist_ok p).
Proof.
  intros w w' r. unfold mkdir_once.
  destruct (os_mkdir fault p w) as [w1 [a|e]] eqn:E;
    apply silent_os_mkdir in E.
  - by intros [= <- _].
  - destruct e; try destruct (negb exist_ok || negb (dir_at w1 p));
      by intros [= <- _].
Qed.

Lemma silent_mkdir_parents p : forall exist_ok,
  silent (mkdir_parents fault exist_ok p).
Proof.
  induction p as [|a up IH]; intros exist_ok w w' r;
    rewrite mkdir_parents_unfold;
    destruct (os_mkdir fault _ w) as [w1 [x|e]] eqn:E;
    apply silent_os_mkdir in E.
  - by intros [= <- _].
  - destruct e; try destruct (negb exist_ok || negb (dir_at w1 []));
      by intros [= <- _].
  - by intros [= <- _].
  - destruct e;
      try (by intros [= <- _]);
      try (destruct (negb exist_ok || negb (dir_at w1 (a :: up)));
           by intros [= <- _]).
    intros H. rewrite <- E. revert H.
    apply silent_bind; [apply IH|intros _; apply silent_mkdir_once].
Qed.

Lemma silent_Path_mkdir parents exist_ok p :
  silent (Path_mkdir fault parents exist_ok p).
Proof.
  destruct parents; [apply silent_mkdir_parents|apply silent_mkdir_once].
Qed.

Lemma silent_write_text p content : silent (write_text fault p content).
Proof.
  intros w w' r. unfold write_text.
  destruct (node_at (files w) p) as [[|c]|].
  - by intros [= <- _].
  - destruct (fault _ _); by intros [= <- _].
  - destruct (node_at (files w) (parent p)) as [[|c]|]; [|by intros [= <- _]..].
    destruct (fault _ _); by intros [= <- _].
Qed.

Lemma silent_create_entry e : forall p, silent (create_entry fault p e).
Proof.
  induction e as [content|items IH] using entry_nested_ind; intros p.
  - change (silent (create_file fault p content)). unfold create_file.
    apply silent_bind; [apply silent_Path_mkdir|intros _].
    apply silent_bind; [apply silent_Path_exists|intros present].
    destruct (negb present || strip_nonempty content);
      [apply silent_write_text|apply silent_ret].
  - change (silent
              (Path_mkdir fault true true p ;;
               for_each (fun item => create_entry fault (item.1 :: p) item.2) items)).
    apply silent_bind; [apply silent_Path_mkdir|intros _].
    clear -IH. induction items as [|item items IHitems]; [apply silent_ret|].
    apply Forall_cons in IH as [IHitem IH].
    rewrite for_each_cons.
    apply silent_bind; [apply IHitem|intros _; by apply IHitems].
Qed.

Lemma silent_create_directory_structure base s :
  silent (create_directory_structure fault base s).
Proof. apply silent_for_each. intros item. apply silent_create_entry. Qed.

Lemma silent_generate_template_files project_path entity_name project_name :
  silent (generate_template_files fault lower project_path entity_name project_name).
Proof.
  unfold generate_template_files.
  apply silent_bind; [apply silent_Path_mkdir|intros _].
  apply silent_for_each. intros [tname template].
  apply silent_bind; [apply silent_lift|intros content].
  apply silent_write_text.
Qed.

Lemma print_stdout line w w' r :
  print line w = (w', r) -> stdout w' = stdout w ++ [line].
Proof. by intros [= <- _]. Qed.

Lemma generate_output root entity_name project_name w w' :
  generate fault lower root entity_name project_name w = (w', Ok tt) ->
  stdout w' = stdout w ++ [ "📁 创建目录结构...";
                            "📝 生成模板文件...";
                            "🔧 创建项目配置文件...";
                            "✅ 项目创建成功!";
                            next_steps project_name ].
Proof.
  unfold generate.
  intros (w1 & [] & Hp1%print_stdout & H)%bind_Ok_inv.
  apply bind_Ok_inv in H as (w2 & [] & Hs2%silent_create_directory_structure & H).
  apply bind_Ok_inv in H as (w3 & [] & Hp3%print_stdout & H).
  apply bind_Ok_inv in H as (w4 & [] & Hs4%silent_generate_template_files & H).
  apply bind_Ok_inv in H as (w5 & [] & Hp5%print_stdout & H).
  apply bind_Ok_inv in H as (w6 & [] & Hs6 & H).
  apply bind_Ok_inv in H as (w7 & [] & Hp7%print_stdout & Hp8%print_stdout).
  assert (stdout w6 = stdout w5) as Hs6'.
  { revert Hs6. apply silent_for_each. intros file_name.
    apply silent_bind; [apply silent_lift|intros template].
    apply silent_bind; [apply silent_lift|intros content].
    apply silent_write_text. }
  rewrite Hp8, Hp7, Hs6', Hp5, Hs4, Hp3, Hs2, Hp1.
  by rewrite <- !app_assoc.
Qed.

End Output.

Lemma next_steps_text project_name :
  next_steps project_name
  = "
🎉 下一步:
1. cd " +:+ project_name +:+ "
2. pip install -e "
      +:+ String "034" (".[dev]" +:+ String "034" "
3. 查看 templates/ 目录下的模板文件
4. 使用模板创建你的第一个实体和服务
5. 运行 pytest 验证设置

📚 参考文档:
- README.md: 项目概述
- templates/: 代码模板
- ../QUICK_START.md: 快速开始指南
        ").
Proof. unfold next_steps. do 2 f_equal. Qed.

(** X16. What a run of [main] that returns has printed, whatever the
    failures of the environment: after what was on the output before,
    the two lines that announce the project and the entity, the three
    progress lines, the line of success and the next steps with the
    project name in them, in this order and nothing else. *)
Theorem main_success_output fault lower argv w w' :
  main fault lower argv w = (w', Ok tt) ->
  let project_name := nth 1 argv EmptyString in
  let entity_name := nth 2 argv EmptyString in
  stdout w' = stdout w ++ [ "🚀 创建Clean DDD项目: " +:+ project_name;
                            "📦 主要实体: " +:+ entity_name;
                            "📁 创建目录结构...";
                            "📝 生成模板文件...";
                            "🔧 创建项目配置文件...";
                            "✅ 项目创建成功!";
                            "
🎉 下一步:
1. cd " +:+ project_name +:+ "
2. pip install -e "
      +:+ String "034" (".[dev]" +:+ String "034" "
3. 查看 templates/ 目录下的模板文件
4. 使用模板创建你的第一个实体和服务
5. 运行 pytest 验证设置

📚 参考文档:
- README.md: 项目概述
- templates/: 代码模板
- ../QUICK_START.md: 快速开始指南
        ") ].
Proof.
  destruct (decide (length argv = 3)) as [Hlen|Hlen].
  2: { by rewrite main_usage by done. }
  destruct argv as [|prog [|pn [|en [|]]]]; try done.
  rewrite main_checked. cbn [nth].
  intros (w1 & present & Hex & H)%bind_Ok_inv.
  apply silent_Path_exists in Hex as Hs1.
  destruct present.
  { apply bind_Ok_inv in H as (w2 & [] & _ & [=]). }
  apply bind_Ok_inv in H as (w2 & [] & Hs2%silent_Path_mkdir & H).
  apply try_except_Ok_inv in H as [H|(w3 & e & _ & H)].
  - apply generate_output in H. rewrite H, Hs2, Hs1, next_steps_text.
    cbn [announced stdout]. by rewrite <- app_assoc.
  - by apply cleanup_exits in H as [e' [=]].
Qed.

Lemma main_success_output_witness :
  let argv := ["project_template.py"; "shop"; "Order"] in
  stdout (main no_fault ascii_lower argv empty_world).1
  = stdout empty_world ++ [ "🚀 创建Clean DDD项目: " +:+ "shop";
                            "📦 主要实体: " +:+ "Order";
                            "📁 创建目录结构...";
                            "📝 生成模板文件...";
                            "🔧 创建项目配置文件...";
                            "✅ 项目创建成功!";
                            "
🎉 下一步:
1. cd " +:+ "shop" +:+ "
2. pip install -e "
      +:+ String "034" (".[dev]" +:+ String "034" "
3. 查看 templates/ 目录下的模板文件
4. 使用模板创建你的第一个实体和服务
5. 运行 pytest 验证设置

📚 参考文档:
- README.md: 项目概述
- templates/: 代码模板
- ../QUICK_START.md: 快速开始指南
        ") ].
Proof.
  intros argv.
  apply (main_success_output no_fault ascii_lower argv empty_world).
  apply (run_eta (main no_fault ascii_lower argv empty_world) (Ok tt)).
  vm_compute. reflexivity.
Defined.
